(** * Survey_drilling3d: trajectory reconstruction and feature draping

    A shallow embedding of [xyz] and of the [DrillData] methods
    [validate_survey], [validate_ID] and [get_points] of
    [W5 Extra/E01/Survey_drilling3d.py].

    Numbers: numpy's float64 values are modelled as real numbers; rounding,
    infinities and not-a-number results of arithmetic are not modelled, so
    that an equation between computed numbers is a statement about real
    arithmetic, which the float64 results follow up to rounding.  Where the
    real tangent is undefined (a dog-leg angle of [PI]) the model says
    nothing of the program.  The not-a-number cell that the numeric branch
    appends is a constructor of its own ([NaN]).

    scipy's [interpolate.splprep] and [interpolate.splev] are not part of the
    program; they are taken as parameters ([SplineLib]). *)

From Stdlib Require Import Reals Lra Lia List String Bool Arith.
Import ListNotations.

Open Scope R_scope.

(** ** Vectors: a numpy array of three floats *)

Definition vec3 : Type := (R * R * R)%type.

Definition vadd (u v : vec3) : vec3 :=
  let '(ux, uy, uz) := u in
  let '(vx, vy, vz) := v in
  (ux + vx, uy + vy, uz + vz).

Definition vscale (c : R) (v : vec3) : vec3 :=
  let '(vx, vy, vz) := v in (c * vx, c * vy, c * vz).

Definition vnorm (v : vec3) : R :=
  let '(vx, vy, vz) := v in sqrt (vx * vx + vy * vy + vz * vz).

Definition vzero : vec3 := (0, 0, 0).

(** ** The segment solver [xyz] *)

Module Segment.

(** [np.radians] *)
Definition radians (x : R) : R := x * (PI / 180).

(** The dog-leg angle [dl], from angles already in radians and dips already
    in zenith form. *)
Definition dogleg (az1 dip1 az2 dip2 : R) : R :=
  acos (cos (dip2 - dip1) - sin dip1 * sin dip2 * (1 - cos (az2 - az1))).

(** The ratio factor [rf]: minimum curvature when [dl != 0], balanced
    tangential otherwise. *)
Definition ratio (dl : R) : R :=
  if Req_dec_T dl 0 then 1 else 2 * tan (dl / 2) / dl.

(** [dl] and [rf] as [xyz] computes them from its arguments in degrees. *)
Definition xyz_dl (az1 dip1 az2 dip2 : R) : R :=
  let az1 := radians az1 in
  let dip1 := radians (90 - dip1) in
  let az2 := radians az2 in
  let dip2 := radians (90 - dip2) in
  dogleg az1 dip1 az2 dip2.

Definition xyz_rf (az1 dip1 az2 dip2 : R) : R :=
  ratio (xyz_dl az1 dip1 az2 dip2).

Definition xyz (d az1 dip1 az2 dip2 : R) : vec3 :=
  let az1 := radians az1 in
  let dip1 := radians (90 - dip1) in
  let az2 := radians az2 in
  let dip2 := radians (90 - dip2) in
  let dl := dogleg az1 dip1 az2 dip2 in
  let rf := ratio dl in
  let dz := - (0.5) * d * (cos dip1 + cos dip2) * rf in
  let dy := 0.5 * d * (sin dip1 * cos az1 + sin dip2 * cos az2) * rf in
  let dx := 0.5 * d * (sin dip1 * sin az1 + sin dip2 * sin az2) * rf in
  (dx, dy, dz).

(** The unit vector that points along a hole of azimuth [az] (clockwise
    from the [y] axis) and dip [dip] (below the horizontal), both in
    degrees: east, north and up components. *)
Definition direction (az dip : R) : vec3 :=
  let a := az * (PI / 180) in
  let e := dip * (PI / 180) in
  (cos e * sin a, cos e * cos a, - sin e).

End Segment.

(** ** Python results *)

(** The exceptions that can leave [get_points]: [IndexError] from
    [.values[0]] on an empty selection, [ValueError] from [.max()] of an
    empty array, [KeyError] from selecting a column that does not exist,
    [ZeroDivisionError] from the division by a length of zero, and whatever
    [splprep] raises. *)
Inductive exn : Type :=
| IndexError
| ValueError
| KeyError
| ZeroDivisionError
| TypeError
| OtherError (msg : string).

Inductive result (A : Type) : Type :=
| Ok (a : A)
| Raise (e : exn).
Arguments Ok {A} a.
Arguments Raise {A} e.

Definition bind {A B : Type} (r : result A) (k : A -> result B) : result B :=
  match r with
  | Ok a => k a
  | Raise e => Raise e
  end.

Notation "x <- r ;; k" := (bind r (fun x => k))
  (at level 61, r at next level, right associativity).

(** How a method call ends. *)
Inductive outcome : Type :=
| Returned
| Raised (e : exn).

(** ** Tables *)

(** A cell of a feature column: a text label, a number, or not-a-number. *)
Inductive cell : Type :=
| Label (s : string)
| Num (r : R)
| NaN.

(** A row of the [points] frame: [[x, y, z, col]], where a gap marker has
    [None] for its three coordinates. *)
Record point : Type := mkPoint {
  pX : option R;
  pY : option R;
  pZ : option R;
  pval : cell
}.

Definition at_position (p : vec3) (col : cell) : point :=
  let '(x, y, z) := p in mkPoint (Some x) (Some y) (Some z) col.

Definition gap (col : cell) : point := mkPoint None None None col.

(** The three frames, after the column and dtype checks: typed rows in the
    column order the positional accesses of [get_points] rely on
    ([ID, X, Y, Z], [ID, AT, AZ, DIP] and [ID, FROM, TO, features...]). *)
Record collar_row : Type := mkCollar {
  cID : string; cX : R; cY : R; cZ : R
}.

Record survey_row : Type := mkSurvey {
  sID : string; sAT : R; sAZ : R; sDIP : R
}.

Record table_row : Type := mkRow {
  tID : string; tFROM : R; tTO : R; tvals : list cell
}.

Record Table : Type := mkTable {
  feature_cols : list string;
  table_rows : list table_row
}.

(** A row of [table[["ID", "FROM", "TO", feature]]]. *)
Record feature_row : Type := mkFeature {
  fID : string; fFROM : R; fTO : R; fcol : cell
}.

(** ** scipy's spline routines, as parameters *)

(** [splprep pts k] fits a curve of degree [k] and may raise; [splev u tck]
    is called with its default [ext=0], under which it returns a value for
    every [u]. *)
Record SplineLib : Type := mkSplineLib {
  tck : Type;
  splprep : list vec3 -> nat -> result tck;
  splev : R -> tck -> vec3
}.

(** ** List helpers for pandas and numpy operations *)

Definition mem (x : string) (l : list string) : bool :=
  existsb (String.eqb x) l.

(** [Series.unique()]: the distinct values in order of first appearance. *)
Fixpoint unique_from (seen : list string) (l : list string) : list string :=
  match l with
  | [] => []
  | x :: t =>
      if mem x seen then unique_from seen t
      else x :: unique_from (x :: seen) t
  end.

Definition unique (l : list string) : list string := unique_from [] l.

(** Python's [zip] of three sequences. *)
Fixpoint zip3 {A B C : Type} (la : list A) (lb : list B) (lc : list C)
  : list (A * B * C) :=
  match la, lb, lc with
  | a :: ta, b :: tb, c :: tc => (a, b, c) :: zip3 ta tb tc
  | _, _, _ => []
  end.

(** [np.cumsum(knots, axis=0)] *)
Fixpoint cumsum_from (acc : vec3) (l : list vec3) : list vec3 :=
  match l with
  | [] => []
  | v :: t => let s := vadd acc v in s :: cumsum_from s t
  end.

Definition cumsum (l : list vec3) : list vec3 :=
  match l with
  | [] => []
  | v :: t => v :: cumsum_from v t
  end.

(** [arr.max()]: numpy raises [ValueError] on an empty array. *)
Definition array_max (l : list R) : result R :=
  match l with
  | [] => Raise ValueError
  | x :: t => Ok (fold_left Rmax t x)
  end.

(** The sum of a list of vectors. *)
Definition vsum (l : list vec3) : vec3 := fold_left vadd l vzero.

(** ** The trajectory of one drillhole *)

(** A row of [dh_survey]: the columns [AT, AZ, DIP] of one drillhole. *)
Definition station : Type := (R * R * R)%type.

Definition st_at (s : station) : R := fst (fst s).
Definition st_angles (s : station) : R * R := (snd (fst s), snd s).

Module Trajectory.

(** [dh_survey[1:, 0] - dh_survey[:-1, 0]] *)
Definition lengths (dh_survey : list station) : list R :=
  map (fun p => st_at (fst p) - st_at (snd p))
      (combine (tl dh_survey) (removelast dh_survey)).

(** The vectors appended to [knots] by the loop over
    [zip(lengths, dh_survey[:-1, 1:], dh_survey[1:, 1:])]. *)
Definition displacements (dh_survey : list station) : list vec3 :=
  map (fun t : R * (R * R) * (R * R) =>
         let '(d, array1, array2) := t in
         Segment.xyz d (fst array1) (snd array1) (fst array2) (snd array2))
      (zip3 (lengths dh_survey)
            (map st_angles (removelast dh_survey))
            (map st_angles (tl dh_survey))).

(** [knots = np.cumsum(knots, axis=0)] and [knots = knots + dh_collar] *)
Definition knots (dh_collar : vec3) (dh_survey : list station) : list vec3 :=
  map (fun k => vadd k dh_collar)
      (cumsum (vzero :: displacements dh_survey)).

(** The degree [k] handed to [splprep]. *)
Definition degree (dh_survey : list station) : nat :=
  if (3 <? List.length dh_survey)%nat then 2%nat else 1%nat.

Definition fit (lib : SplineLib) (dh_collar : vec3) (dh_survey : list station)
  : result (tck lib) :=
  splprep lib (knots dh_collar dh_survey) (degree dh_survey).

End Trajectory.

(** The displacement of a segment, from its two stations. *)
Definition segment (s0 s1 : station) : vec3 :=
  Segment.xyz (st_at s1 - st_at s0)
              (fst (st_angles s0)) (snd (st_angles s0))
              (fst (st_angles s1)) (snd (st_angles s1)).

(** ** Draping the feature intervals of one drillhole *)

Module Drape.

(** [dh_feature] is an object array of Python floats, whose division by
    [length] is Python's: it raises [ZeroDivisionError] at the first
    element when [length] is zero. *)
Definition divide (x length : R) : result R :=
  if Req_dec_T length 0 then Raise ZeroDivisionError else Ok (x / length).

Fixpoint divide_all (xs : list R) (length : R) : result (list R) :=
  match xs with
  | [] => Ok []
  | x :: rest =>
      q <- divide x length ;;
      qs <- divide_all rest length ;;
      Ok (q :: qs)
  end.

(** [dfrom], [dto] and [column], zipped as the loops consume them. *)
Definition normalized (length : R) (dh_feature : list feature_row)
  : result (list (R * R * cell)) :=
  dfrom <- divide_all (map fFROM dh_feature) length ;;
  dto <- divide_all (map fTO dh_feature) length ;;
  Ok (zip3 dfrom dto (map fcol dh_feature)).

(** What [normalized] returns when [length] is not zero. *)
Definition quotients (length : R) (dh_feature : list feature_row)
  : list (R * R * cell) :=
  zip3 (map (fun r => fFROM r / length) dh_feature)
       (map (fun r => fTO r / length) dh_feature)
       (map fcol dh_feature).

Definition total_length (dh_feature : list feature_row) : result R :=
  array_max (map fTO dh_feature).

(** Lines 239 to 242: the length of the drillhole and its normalized
    intervals. *)
Definition intervals (dh_feature : list feature_row)
  : result (list (R * R * cell)) :=
  length <- total_length dh_feature ;;
  normalized length dh_feature.

Section WithSplines.

Variable lib : SplineLib.

(** The inner loop of the categorical branch; [points] is the list the
    loop extends. *)
Fixpoint categorical (t : tck lib) (abc : list (R * R * cell))
  (points : list point) : list point :=
  match abc with
  | [] => points
  | (a, b, col) :: rest =>
      let p1 := at_position (splev lib a t) col in
      let p2 := at_position (splev lib b t) col in
      let p3 := gap col in
      categorical t rest (points ++ [p1; p2; p3])
  end.

Fixpoint numeric_loop (t : tck lib) (abc : list (R * R * cell))
  (points : list point) : list point :=
  match abc with
  | [] => points
  | (a, b, col) :: rest =>
      let p1 := at_position (splev lib a t) col in
      let p2 := at_position (splev lib b t) col in
      numeric_loop t rest (points ++ [p1; p2])
  end.

(** The inner loop of the numeric branch and the [points.append] after
    it. *)
Definition numeric (t : tck lib) (abc : list (R * R * cell))
  (points : list point) : list point :=
  numeric_loop t abc points ++ [gap NaN].

End WithSplines.

End Drape.

(** What one interval contributes to [points]. *)
Definition categorical_segment (lib : SplineLib) (t : tck lib)
  (x : R * R * cell) : list point :=
  let '(a, b, col) := x in
  [at_position (splev lib a t) col; at_position (splev lib b t) col; gap col].

Definition numeric_segment (lib : SplineLib) (t : tck lib)
  (x : R * R * cell) : list point :=
  let '(a, b, col) := x in
  [at_position (splev lib a t) col; at_position (splev lib b t) col].

Definition is_gap (p : point) : bool :=
  match pX p, pY p, pZ p with
  | None, None, None => true
  | _, _, _ => false
  end.

(** The points of the rows of one drillhole, written from the rows of the
    feature table: [i] is the position of the feature among the feature
    columns. *)
Definition categorical_rows (lib : SplineLib) (t : tck lib) (length : R)
  (i : nat) (rows : list table_row) : list point :=
  flat_map (fun r =>
              let v := nth i (tvals r) NaN in
              [at_position (splev lib (tFROM r / length) t) v;
               at_position (splev lib (tTO r / length) t) v;
               gap v])
           rows.

Definition numeric_rows (lib : SplineLib) (t : tck lib) (length : R)
  (i : nat) (rows : list table_row) : list point :=
  flat_map (fun r =>
              let v := nth i (tvals r) NaN in
              [at_position (splev lib (tFROM r / length) t) v;
               at_position (splev lib (tTO r / length) t) v])
           rows
  ++ [gap NaN].

(** [holes] lists each name of [ids] once, a name before another when its
    first occurrence in [ids] comes first. *)
Definition first_appearance_order (ids holes : list string) : Prop :=
  NoDup holes
  /\ (forall x, In x holes <-> In x ids)
  /\ forall h1 a h2 b,
      holes = h1 ++ a :: h2 -> In b h2 ->
      exists l1 l2, ids = l1 ++ a :: l2 /\ ~ In a l1 /\ ~ In b l1.

(** ** The [DrillData] object *)

Record DrillData : Type := mkDrillData {
  collar : list collar_row;
  survey : list survey_row;
  table : Table;
  table_name : string;
  validated : bool;
  has_points : bool;
  feature : option string;
  feature_dtype : option string;
  points : option (list point)
}.

(** [__init__]; the attributes [feature_dtype] and [points] do not exist
    yet, which [None] stands for. *)
Definition init (collar : list collar_row) (survey : list survey_row)
  (table : Table) (table_name : string) : DrillData :=
  mkDrillData collar survey table table_name false false None None None.

Definition set_validated (self : DrillData) (v : bool) : DrillData :=
  mkDrillData (collar self) (survey self) (table self) (table_name self)
              v (has_points self) (feature self) (feature_dtype self)
              (points self).

Definition set_feature (self : DrillData) (f dtype : string) : DrillData :=
  mkDrillData (collar self) (survey self) (table self) (table_name self)
              (validated self) (has_points self) (Some f) (Some dtype)
              (points self).

Definition set_points (self : DrillData) (pts : list point) : DrillData :=
  mkDrillData (collar self) (survey self) (table self) (table_name self)
              (validated self) true (feature self) (feature_dtype self)
              (Some pts).

(** *** Content validation *)

(** [len(survey[survey["ID"] == dh])] *)
Definition survey_count (self : DrillData) (dh : string) : nat :=
  List.length (filter (fun s => String.eqb (sID s) dh) (survey self)).

Definition one_row_dh (self : DrillData) : list string :=
  filter (fun dh => (survey_count self dh <=? 1)%nat)
         (unique (map sID (survey self))).

Definition validate_survey (self : DrillData) : DrillData :=
  if negb (validated self) then self
  else if (List.length (one_row_dh self) =? 0)%nat
       then set_validated self true
       else set_validated self false.

(** Python sets of drillhole names, as duplicate-free lists. *)
Definition set_xor (a b : list string) : list string :=
  filter (fun x => negb (mem x b)) a ++ filter (fun x => negb (mem x a)) b.

Definition set_union (a b : list string) : list string := unique (a ++ b).

(** [c ^ s | t ^ s | c ^ t] *)
Definition extra_dh (self : DrillData) : list string :=
  let c := unique (map cID (collar self)) in
  let s := unique (map sID (survey self)) in
  let t := unique (map tID (table_rows (table self))) in
  set_union (set_union (set_xor c s) (set_xor t s)) (set_xor c t).

Definition validate_ID (self : DrillData) : DrillData :=
  if negb (validated self) then self
  else if (List.length (extra_dh self) =? 0)%nat
       then set_validated self true
       else set_validated self false.

(** The last two steps of [validate], which decide on the content of the
    frames. *)
Definition validate_content (self : DrillData) : DrillData :=
  validate_ID (validate_survey self).

(** *** [get_points] *)

Fixpoint index_of (x : string) (l : list string) : option nat :=
  match l with
  | [] => None
  | y :: t =>
      if String.eqb y x then Some 0%nat
      else option_map S (index_of x t)
  end.

(** [self.table[["ID", "FROM", "TO", feature]]]: [feature] is one of the
    columns after [ID, FROM, TO], or [FROM] or [TO], which pandas then
    selects a second time; pandas raises [KeyError] for a column that does
    not exist.  The selection of [ID] a second time is outside the model
    (every later [table["ID"]] is then a frame of two columns): the model
    has [KeyError] there too, and what is proved of a selection that
    succeeds does not concern it. *)
Definition select_feature (t : Table) (feature : string)
  : result (list feature_row) :=
  match index_of feature (feature_cols t) with
  | Some i =>
      Ok (map (fun r => mkFeature (tID r) (tFROM r) (tTO r)
                                  (nth i (tvals r) NaN))
              (table_rows t))
  | None =>
      if String.eqb feature "FROM"
      then Ok (map (fun r => mkFeature (tID r) (tFROM r) (tTO r)
                                       (Num (tFROM r)))
                   (table_rows t))
      else if String.eqb feature "TO"
      then Ok (map (fun r => mkFeature (tID r) (tFROM r) (tTO r)
                                       (Num (tTO r)))
                   (table_rows t))
      else Raise KeyError
  end.

(** [collar[collar["ID"] == dh].values[0][1:]] *)
Definition hole_collar (collar : list collar_row) (dh : string)
  : result vec3 :=
  match filter (fun c => String.eqb (cID c) dh) collar with
  | [] => Raise IndexError
  | c :: _ => Ok (cX c, cY c, cZ c)
  end.

(** [survey[survey["ID"] == dh].values[:, 1:]] *)
Definition hole_survey (survey : list survey_row) (dh : string)
  : list station :=
  map (fun s => (sAT s, sAZ s, sDIP s))
      (filter (fun s => String.eqb (sID s) dh) survey).

(** [table[table["ID"] == dh]] *)
Definition hole_feature (table : list feature_row) (dh : string)
  : list feature_row :=
  filter (fun r => String.eqb (fID r) dh) table.

Section GetPoints.

Variable lib : SplineLib.

(** The body of the loop over [holeid] up to the inner loop; its text is
    the same in both branches. *)
Definition hole_setup (collar : list collar_row) (survey : list survey_row)
  (table : list feature_row) (dh : string)
  : result (tck lib * list (R * R * cell)) :=
  dh_collar <- hole_collar collar dh ;;
  let dh_survey := hole_survey survey dh in
  let dh_feature := hole_feature table dh in
  t <- Trajectory.fit lib dh_collar dh_survey ;;
  abc <- Drape.intervals dh_feature ;;
  Ok (t, abc).

Fixpoint loop_categorical (collar : list collar_row)
  (survey : list survey_row) (table : list feature_row)
  (holeid : list string) (points : list point) : result (list point) :=
  match holeid with
  | [] => Ok points
  | dh :: rest =>
      s <- hole_setup collar survey table dh ;;
      loop_categorical collar survey table rest
                       (Drape.categorical lib (fst s) (snd s) points)
  end.

Fixpoint loop_numeric (collar : list collar_row)
  (survey : list survey_row) (table : list feature_row)
  (holeid : list string) (points : list point) : result (list point) :=
  match holeid with
  | [] => Ok points
  | dh :: rest =>
      s <- hole_setup collar survey table dh ;;
      loop_numeric collar survey table rest
                   (Drape.numeric lib (fst s) (snd s) points)
  end.

Definition get_points (self : DrillData) (feature dtype : string)
  : DrillData * outcome :=
  if negb (validated self) then (self, Returned)
  else
    let self := set_feature self feature dtype in
    match select_feature (table self) feature with
    | Raise e => (self, Raised e)
    | Ok table =>
        let holeid := unique (map sID (survey self)) in
        let r :=
          if String.eqb dtype "categorical"
          then loop_categorical (collar self) (survey self) table holeid []
          else if String.eqb dtype "numeric"
          then loop_numeric (collar self) (survey self) table holeid []
          else Ok [] in
        match r with
        | Raise e => (self, Raised e)
        | Ok points => (set_points self points, Returned)
        end
    end.

End GetPoints.

(** What one drillhole contributes to [points], from an empty list. *)
Definition hole_points (lib : SplineLib) (dtype : string)
  (t : tck lib) (abc : list (R * R * cell)) : list point :=
  if String.eqb dtype "categorical"
  then flat_map (categorical_segment lib t) abc
  else flat_map (numeric_segment lib t) abc ++ [gap NaN].

(** ** Example data *)

Module Examples.

(** A spline instance for the examples: [splprep] refuses [m <= k] points
    and keeps the points, [splev] evaluates the chord from the first to the
    last of them, for every [u]. *)
Definition chord_lib : SplineLib :=
  mkSplineLib (list vec3)
    (fun pts k =>
       if (List.length pts <=? k)%nat then Raise TypeError else Ok pts)
    (fun u pts =>
       let p0 := hd vzero pts in
       let p1 := last pts vzero in
       vadd p0 (vscale u (vadd p1 (vscale (-1) p0)))).

Definition lith (rows : list table_row) : Table := mkTable ["LITH"%string] rows.

(** One drillhole with three stations and two intervals. *)
Definition dh1_collar : vec3 := (1000, 1000, 500).

Definition dh1_stations : list station :=
  [(0, 0, 0); (50, 10, 5); (100, 15, 10)].

Definition dh1_survey : list survey_row :=
  [mkSurvey "DH1" 0 0 0; mkSurvey "DH1" 50 10 5; mkSurvey "DH1" 100 15 10].

Definition dh1_rows : list feature_row :=
  [mkFeature "DH1" 0 50 (Label "ORE"); mkFeature "DH1" 50 100 (Label "WASTE")].

(** The curve that [get_points] computes for [DH1] with [chord_lib]. *)
Definition dh1_curve (dh : string) : tck chord_lib :=
  Trajectory.knots dh1_collar dh1_stations.

Definition dh1 : DrillData :=
  mkDrillData
    [mkCollar "DH1" 1000 1000 500]
    dh1_survey
    (lith [mkRow "DH1" 0 50 [Label "ORE"]; mkRow "DH1" 50 100 [Label "WASTE"]])
    "lithology" true false None None None.

(** Two drillholes, of which [B] has a single survey row. *)
Definition one_station_batch : DrillData :=
  mkDrillData
    [mkCollar "A" 0 0 0; mkCollar "B" 10 0 0]
    [mkSurvey "A" 0 0 90; mkSurvey "A" 100 0 90; mkSurvey "B" 0 0 90]
    (lith [mkRow "A" 0 100 [Label "ORE"]; mkRow "B" 0 100 [Label "ORE"]])
    "lithology" true false None None None.

(** Two drillholes, of which [B] has no row in the feature table. *)
Definition no_feature_batch : DrillData :=
  mkDrillData
    [mkCollar "A" 0 0 0; mkCollar "B" 10 0 0]
    [mkSurvey "A" 0 0 90; mkSurvey "A" 100 0 90;
     mkSurvey "B" 0 0 90; mkSurvey "B" 100 0 90]
    (lith [mkRow "A" 0 100 [Label "ORE"]])
    "lithology" true false None None None.

(** One drillhole whose only interval starts above the collar
    ([FROM < 0 < TO]), and the curve the example instance keeps for it. *)
Definition negative_from_row : feature_row :=
  mkFeature "A" (-10) 100 (Label "ORE").

Definition negative_from_curve : tck chord_lib :=
  Trajectory.knots (0, 0, 0) [(0, 0, 90); (100, 0, 90)].

Definition negative_from : DrillData :=
  mkDrillData
    [mkCollar "A" 0 0 0]
    [mkSurvey "A" 0 0 90; mkSurvey "A" 100 0 90]
    (lith [mkRow "A" (-10) 100 [Label "ORE"]])
    "lithology" true false None None None.

(** One drillhole whose only interval ends at the collar ([TO = 0]). *)
Definition zero_to_row : feature_row :=
  mkFeature "A" (-10) 0 (Label "ORE").

Definition zero_to : DrillData :=
  mkDrillData
    [mkCollar "A" 0 0 0]
    [mkSurvey "A" 0 0 90; mkSurvey "A" 100 0 90]
    (lith [mkRow "A" (-10) 0 [Label "ORE"]])
    "lithology" true false None None None.

(** Two drillholes whose rows alternate in the survey table, [B] first,
    and in the feature table, [A] first; the curves and lengths that
    [get_points] computes for them with [chord_lib]. *)
Definition alternating : DrillData :=
  mkDrillData
    [mkCollar "A" 0 0 0; mkCollar "B" 10 0 0]
    [mkSurvey "B" 0 0 90; mkSurvey "A" 0 0 90;
     mkSurvey "B" 80 0 90; mkSurvey "A" 100 0 90]
    (lith [mkRow "A" 0 50 [Label "ORE"]; mkRow "B" 0 80 [Label "SILT"];
           mkRow "A" 50 100 [Label "WASTE"]])
    "lithology" true false None None None.

Definition alternating_curve (dh : string) : tck chord_lib :=
  if String.eqb dh "A"
  then Trajectory.knots (0, 0, 0) [(0, 0, 90); (100, 0, 90)]
  else Trajectory.knots (10, 0, 0) [(0, 0, 90); (80, 0, 90)].

Definition alternating_length (dh : string) : R :=
  if String.eqb dh "A" then 100 else 80.







End Examples.

(** ** The schema checks of [validate] *)

(** What the schema checks read of a frame: its column names with the
    names of their dtypes, in column order ([df.columns], [df.dtypes]).
    The frames of [DrillData] hold typed rows, so the schema of a frame is
    passed alongside, as the [df] argument of the two checks. *)
Definition schema : Type := list (string * string).

(** [list.remove(x)]: drops the first occurrence. *)
Fixpoint remove_first (x : string) (l : list string) : list string :=
  match l with
  | [] => []
  | y :: t => if String.eqb y x then t else y :: remove_first x t
  end.

(** The loop of [validate_columns].  [missing_cols] is the list object
    [columns] itself, so that [missing_cols.remove(col)] also shortens the
    list that [col in columns] looks into. *)
Fixpoint columns_loop (dfcols columns : list string) (count : Z)
  : list string * Z :=
  match dfcols with
  | [] => (columns, count)
  | col :: rest =>
      if mem col columns
      then columns_loop rest (remove_first col columns) (count - 1)%Z
      else columns_loop rest columns count
  end.

Definition validate_columns (self : DrillData) (dfcols columns : list string)
  : DrillData :=
  let count := snd (columns_loop dfcols columns
                                 (Z.of_nat (List.length columns))) in
  if (count =? 0)%Z then set_validated self true else self.

(** [df_dtypes[col]] on [dict(df.dtypes)], for frames with distinct column
    names. *)
Fixpoint dict_get (col : string) (d : schema) : result string :=
  match d with
  | [] => Raise KeyError
  | (c, v) :: t => if String.eqb c col then Ok v else dict_get col t
  end.

Fixpoint datatypes_loop (df_dtypes : schema) (dtypes : list (string * string))
  (count : Z) : result Z :=
  match dtypes with
  | [] => Ok count
  | (col, dtype) :: rest =>
      v <- dict_get col df_dtypes ;;
      if String.eqb v dtype
      then datatypes_loop df_dtypes rest count
      else datatypes_loop df_dtypes rest (count + 1)%Z
  end.

Definition validate_datatypes (self : DrillData) (df_dtypes : schema)
  (dtypes : list (string * string)) : DrillData * outcome :=
  if negb (validated self) then (self, Returned)
  else
    match datatypes_loop df_dtypes dtypes 0%Z with
    | Raise e => (self, Raised e)
    | Ok count =>
        if (count =? 0)%Z then (set_validated self true, Returned)
        else (set_validated self false, Returned)
    end.

(** Sequencing of calls that may raise. *)
Definition and_then (r : DrillData * outcome)
  (k : DrillData -> DrillData * outcome) : DrillData * outcome :=
  match snd r with
  | Returned => k (fst r)
  | Raised e => r
  end.

Definition collar_dtypes : list (string * string) :=
  [("ID", "object"); ("X", "float64"); ("Y", "float64");
   ("Z", "float64")]%string.
Definition survey_columns : list string :=
  ["ID"; "AT"; "AZ"; "DIP"]%string.
Definition table_columns : list string :=
  ["ID"; "FROM"; "TO"]%string.





(** ** The traces of [plot_3d] *)

(** A [go.Scatter3d] trace: its name, legend group, mode, coordinates,
    text labels and the list given as line colour, if any; the constant
    styling arguments (sizes, widths, colours) are left out.  The layout of
    the figure (size, colours, axis ranges) is set after the traces and is
    not modelled.  [plot_3d] reads the column [self.feature] of [points]:
    the model is for objects whose [points] were computed for the recorded
    feature, as [get_points] leaves them when it returns normally. *)
Inductive trace_name : Type :=
| Named (s : string)
| Valued (c : cell).

Record trace : Type := mkTrace {
  tr_name : trace_name;
  tr_legendgroup : string;
  tr_mode : string;
  tr_x : list (option R);
  tr_y : list (option R);
  tr_z : list (option R);
  tr_text : option (list string);
  tr_color : option (list cell)
}.

(** [==] on cells, under which not-a-number equals nothing, and the
    sameness that [unique()] uses, under which it equals itself. *)
Definition cell_eqb (a b : cell) : bool :=
  match a, b with
  | Label s, Label s' => String.eqb s s'
  | Num r, Num r' => if Req_dec_T r r' then true else false
  | _, _ => false
  end.

Definition cell_same (a b : cell) : bool :=
  match a, b with
  | NaN, NaN => true
  | _, _ => cell_eqb a b
  end.

Fixpoint unique_cells_from (seen : list cell) (l : list cell) : list cell :=
  match l with
  | [] => []
  | x :: t =>
      if existsb (cell_same x) seen then unique_cells_from seen t
      else x :: unique_cells_from (x :: seen) t
  end.

Definition points_trace (name : trace_name) (group mode : string)
  (pts : list point) (color : option (list cell)) : trace :=
  mkTrace name group mode (map pX pts) (map pY pts) (map pZ pts) None color.

(** What [go.Scatter3d] accepts as line colour: numbers, and the texts
    that plotly takes for the name of a colour ([is_color], plotly's own
    test). *)
Definition color_accepted (is_color : string -> bool) (c : cell) : bool :=
  match c with
  | Label s => is_color s
  | Num _ => true
  | NaN => true
  end.

(** The traces added for a dtype recorded by [get_points]; the trace of
    the numeric branch takes the feature column as line colour, which
    [go.Scatter3d] refuses with [ValueError] when it holds a text that is
    not a colour. *)
Definition feature_traces (is_color : string -> bool)
  (dtype feature : string) (pts : list point) : result (list trace) :=
  if String.eqb dtype "categoric"
  then Ok (map (fun value =>
                  points_trace (Valued value) "feature" "lines"
                    (filter (fun p => cell_eqb (pval p) value) pts) None)
               (unique_cells_from [] (map pval pts)))
  else if String.eqb dtype "numeric"
  then if forallb (color_accepted is_color) (map pval pts)
       then Ok [points_trace (Named feature) "feature" "lines+text" pts
                  (Some (map pval pts))]
       else Raise ValueError
  else Ok [].

(** [plot_3d]: [Ok None] when the method returns at its gate, otherwise the
    traces of the figure it shows.  Reading an attribute that [get_points]
    has not set raises [AttributeError]. *)
Definition plot_3d (is_color : string -> bool) (self : DrillData)
  : result (option (list trace)) :=
  if negb (has_points self) then Ok None
  else
    match feature self, points self, feature_dtype self with
    | Some feature, Some pts, Some dtype =>
        let collar_trace :=
          mkTrace (Named "Collar") "drillhole" "markers+text"
                  (map (fun c => Some (cX c)) (collar self))
                  (map (fun c => Some (cY c)) (collar self))
                  (map (fun c => Some (cZ c)) (collar self))
                  (Some (map cID (collar self))) None in
        let path_trace :=
          points_trace (Named "Path") "drillhole" "lines" pts None in
        traces <- feature_traces is_color dtype feature pts ;;
        Ok (Some (collar_trace :: path_trace :: traces))
    | _, _, _ => Raise (OtherError "AttributeError")
    end.

(** *** Properties of the segment solver *)

Lemma dogleg_same (az dip : R) : Segment.dogleg az dip az dip = 0.
Proof.
  unfold Segment.dogleg.
  replace (dip - dip) with 0 by lra.
  replace (az - az) with 0 by lra.
  rewrite cos_0.
  replace (1 - sin dip * sin dip * (1 - 1)) with 1 by lra.
  apply acos_1.
Qed.

Lemma ratio_0 : Segment.ratio 0 = 1.
Proof.
  unfold Segment.ratio. destruct (Req_dec_T 0 0) as [_ | H]; [reflexivity | ].
  exfalso; apply H; reflexivity.
Qed.

Lemma ratio_nonzero (dl : R) :
  dl <> 0 -> Segment.ratio dl = 2 * tan (dl / 2) / dl.
Proof.
  intros H. unfold Segment.ratio.
  destruct (Req_dec_T dl 0) as [E | _]; [contradiction | reflexivity].
Qed.

(** The zenith form of a dip: its sine and cosine are the cosine and sine
    of the dip. *)
Lemma radians_zenith (dip : R) :
  Segment.radians (90 - dip) = PI / 2 - dip * (PI / 180).
Proof. unfold Segment.radians. lra. Qed.

Lemma sin_zenith (dip : R) :
  sin (Segment.radians (90 - dip)) = cos (dip * (PI / 180)).
Proof. rewrite radians_zenith. apply sin_shift. Qed.

Lemma cos_zenith (dip : R) :
  cos (Segment.radians (90 - dip)) = sin (dip * (PI / 180)).
Proof. rewrite radians_zenith. apply cos_shift. Qed.

Lemma direction_unit (az dip : R) : vnorm (Segment.direction az dip) = 1.
Proof.
  unfold vnorm, Segment.direction. cbv zeta.
  set (a := az * (PI / 180)). set (e := dip * (PI / 180)).
  pose proof (sin2_cos2 a) as Ha. pose proof (sin2_cos2 e) as He.
  unfold Rsqr in Ha, He.
  replace (cos e * sin a * (cos e * sin a) + cos e * cos a * (cos e * cos a)
           + - sin e * - sin e)
    with (cos e * cos e * (sin a * sin a + cos a * cos a) + sin e * sin e)
    by ring.
  rewrite Ha, Rmult_1_r, Rplus_comm, He. apply sqrt_1.
Qed.

Lemma vnorm_scale (c : R) (v : vec3) :
  0 <= c -> vnorm (vscale c v) = c * vnorm v.
Proof.
  intros Hc. destruct v as [[x y] z]. unfold vnorm, vscale.
  replace (c * x * (c * x) + c * y * (c * y) + c * z * (c * z))
    with (c * c * (x * x + y * y + z * z)) by ring.
  rewrite sqrt_mult_alt by nra.
  rewrite sqrt_square by assumption. reflexivity.
Qed.

Lemma xyz_same_direction (d az dip : R) :
  Segment.xyz d az dip az dip = vscale d (Segment.direction az dip).
Proof.
  unfold Segment.xyz, Segment.direction, vscale. cbv zeta.
  rewrite dogleg_same, ratio_0, sin_zenith, cos_zenith.
  unfold Segment.radians.
  f_equal; [f_equal | ]; lra.
Qed.

(** X20: in real arithmetic, for [d >= 0] and two identical stations,
    [xyz] computes [dl = 0], takes [rf = 1], and returns [d] times the unit
    vector of the hole direction (horizontal part [cos dip] towards the
    azimuth, vertical part [- sin dip], angles in degrees), a vector of
    Euclidean norm [d]. *)
Theorem xyz_identical_stations (d az dip : R) :
  0 <= d ->
  Segment.xyz_dl az dip az dip = 0
  /\ Segment.xyz_rf az dip az dip = 1
  /\ Segment.xyz d az dip az dip = vscale d (Segment.direction az dip)
  /\ vnorm (Segment.direction az dip) = 1
  /\ vnorm (Segment.xyz d az dip az dip) = d.
Proof.
  intros Hd.
  assert (Hdl : Segment.xyz_dl az dip az dip = 0)
    by (unfold Segment.xyz_dl; apply dogleg_same).
  assert (Hrf : Segment.xyz_rf az dip az dip = 1)
    by (unfold Segment.xyz_rf; rewrite Hdl; apply ratio_0).
  repeat split; try assumption.
  - apply xyz_same_direction.
  - apply direction_unit.
  - rewrite xyz_same_direction, vnorm_scale by assumption.
    rewrite direction_unit. lra.
Qed.

Lemma xyz_identical_stations_witness :
  0 <= 50
  /\ Segment.xyz_dl 10 5 10 5 = 0
  /\ vnorm (Segment.xyz 50 10 5 10 5) = 50.
Proof.
  split; [lra | ].
  destruct (xyz_identical_stations 50 10 5 ltac:(lra))
    as (Hdl & _ & _ & _ & Hn).
  split; assumption.
Defined.

(** *** Properties of the trajectory builder *)

Lemma vadd_zero_l (v : vec3) : vadd vzero v = v.
Proof.
  destruct v as [[x y] z]. unfold vadd, vzero.
  f_equal; [f_equal | ]; lra.
Qed.

Lemma length_tl {A : Type} (l : list A) :
  List.length (tl l) = (List.length l - 1)%nat.
Proof. destruct l; simpl; lia. Qed.

Lemma length_removelast {A : Type} (l : list A) :
  List.length (removelast l) = (List.length l - 1)%nat.
Proof.
  induction l as [| a [| b t] IH]; simpl in *; try lia.
Qed.

Lemma length_zip3 {A B C : Type} (la : list A) (lb : list B) (lc : list C) :
  List.length (zip3 la lb lc)
  = Nat.min (List.length la) (Nat.min (List.length lb) (List.length lc)).
Proof.
  revert lb lc.
  induction la as [| a ta IH]; intros [| b tb] [| c tc]; simpl; try lia.
  rewrite IH. reflexivity.
Qed.

Lemma length_lengths (sv : list station) :
  List.length (Trajectory.lengths sv) = (List.length sv - 1)%nat.
Proof.
  unfold Trajectory.lengths.
  rewrite length_map, length_combine, length_tl, length_removelast. lia.
Qed.

Lemma length_displacements (sv : list station) :
  List.length (Trajectory.displacements sv) = (List.length sv - 1)%nat.
Proof.
  unfold Trajectory.displacements.
  rewrite length_map, length_zip3, !length_map, length_lengths,
    length_tl, length_removelast.
  lia.
Qed.

Lemma length_cumsum_from (l : list vec3) (acc : vec3) :
  List.length (cumsum_from acc l) = List.length l.
Proof.
  revert acc. induction l as [| v t IH]; intros acc; simpl; [reflexivity | ].
  now rewrite IH.
Qed.

Lemma length_cumsum (l : list vec3) :
  List.length (cumsum l) = List.length l.
Proof.
  destruct l as [| v t]; simpl; [reflexivity | ].
  now rewrite length_cumsum_from.
Qed.

Lemma length_knots (c : vec3) (sv : list station) :
  List.length (Trajectory.knots c sv) = S (List.length sv - 1).
Proof.
  unfold Trajectory.knots.
  rewrite length_map, length_cumsum. simpl.
  now rewrite length_displacements.
Qed.

Lemma nth_cumsum_from (l : list vec3) (acc d : vec3) (i : nat) :
  (i < List.length l)%nat ->
  nth i (cumsum_from acc l) d = fold_left vadd (firstn (S i) l) acc.
Proof.
  revert acc i. induction l as [| v t IH]; intros acc i Hi; simpl in Hi.
  - lia.
  - destruct i as [| i]; simpl.
    + reflexivity.
    + rewrite IH by lia. reflexivity.
Qed.

(** The running sum that starts from the zero knot: knot [i] is the sum of
    the first [i] displacements. *)
Lemma nth_cumsum_zero (l : list vec3) (d : vec3) (i : nat) :
  (i <= List.length l)%nat ->
  nth i (cumsum (vzero :: l)) d = vsum (firstn i l).
Proof.
  intros Hi. unfold cumsum, vsum.
  destruct i as [| i]; [reflexivity | ].
  simpl nth. rewrite nth_cumsum_from by lia. reflexivity.
Qed.

Lemma displacements_step (s0 s1 : station) (rest : list station) :
  Trajectory.displacements (s0 :: s1 :: rest)
  = segment s0 s1 :: Trajectory.displacements (s1 :: rest).
Proof. reflexivity. Qed.

Lemma nth_error_displacements (sv : list station) (i : nat)
  (s0 s1 : station) :
  nth_error sv i = Some s0 ->
  nth_error sv (S i) = Some s1 ->
  nth_error (Trajectory.displacements sv) i = Some (segment s0 s1).
Proof.
  revert i. induction sv as [| a [| b t] IH]; intros i H0 H1.
  - destruct i; discriminate.
  - destruct i as [| [| i]]; discriminate.
  - rewrite displacements_step. destruct i as [| i].
    + simpl in H0, H1. injection H0 as <-. injection H1 as <-. reflexivity.
    + simpl nth_error at 1. apply IH; assumption.
Qed.

(** C2: a drillhole with [n >= 2] survey stations gets exactly [n] knots,
    the first knot is the collar position, and knot [i] is the sum of the
    first [i] segment displacements (the running sum that starts at
    [(0,0,0)]) translated by the collar position, where displacement [i] is
    [xyz] of [AT[i+1] - AT[i]] and the angles of stations [i] and [i+1]. *)
Theorem knots_of_stations (dh_collar : vec3) (dh_survey : list station) :
  (2 <= List.length dh_survey)%nat ->
  List.length (Trajectory.knots dh_collar dh_survey) = List.length dh_survey
  /\ hd_error (Trajectory.knots dh_collar dh_survey) = Some dh_collar
  /\ (forall i : nat,
        (i < List.length dh_survey)%nat ->
        nth_error (Trajectory.knots dh_collar dh_survey) i
        = Some (vadd (vsum (firstn i (Trajectory.displacements dh_survey)))
                     dh_collar))
  /\ (forall (i : nat) (s0 s1 : station),
        nth_error dh_survey i = Some s0 ->
        nth_error dh_survey (S i) = Some s1 ->
        nth_error (Trajectory.displacements dh_survey) i
        = Some (Segment.xyz (st_at s1 - st_at s0)
                            (fst (st_angles s0)) (snd (st_angles s0))
                            (fst (st_angles s1)) (snd (st_angles s1)))).
Proof.
  intros Hn. split; [ | split; [ | split]];
    [ | | | intros i s0 s1; apply nth_error_displacements].
  - rewrite length_knots. lia.
  - unfold Trajectory.knots, cumsum. cbn [map hd_error].
    f_equal. apply vadd_zero_l.
  - intros i Hi. unfold Trajectory.knots.
    rewrite nth_error_map.
    rewrite (nth_error_nth' _ vzero)
      by (rewrite length_cumsum; simpl; rewrite length_displacements; lia).
    rewrite nth_cumsum_zero by (rewrite length_displacements; lia).
    reflexivity.
Qed.

Lemma knots_of_stations_witness :
  (2 <= List.length Examples.dh1_stations)%nat
  /\ List.length (Trajectory.knots Examples.dh1_collar Examples.dh1_stations)
     = 3%nat
  /\ hd_error (Trajectory.knots Examples.dh1_collar Examples.dh1_stations)
     = Some Examples.dh1_collar.
Proof.
  assert (H : (2 <= List.length Examples.dh1_stations)%nat) by (simpl; lia).
  split; [exact H | ].
  destruct (knots_of_stations Examples.dh1_collar Examples.dh1_stations H)
    as (Hl & Hh & _).
  split; [exact Hl | exact Hh].
Defined.

(** *** The degree of the fitted curve *)

(** C4: the curve is fitted with degree 2 exactly when there are more than
    3 knots and with degree 1 otherwise; three stations give degree 1. *)
Theorem degree_by_knot_count (lib : SplineLib) (dh_collar : vec3)
  (dh_survey : list station) :
  let knots := Trajectory.knots dh_collar dh_survey in
  (Trajectory.degree dh_survey = 2%nat <-> (3 < List.length knots)%nat)
  /\ (Trajectory.degree dh_survey = 1%nat <-> (List.length knots <= 3)%nat)
  /\ Trajectory.fit lib dh_collar dh_survey
     = splprep lib knots (if (3 <? List.length knots)%nat
                          then 2%nat else 1%nat)
  /\ (List.length dh_survey = 3%nat -> Trajectory.degree dh_survey = 1%nat).
Proof.
  intros knots. subst knots.
  unfold Trajectory.fit, Trajectory.degree.
  rewrite length_knots.
  destruct (3 <? List.length dh_survey)%nat eqn:E;
    [apply Nat.ltb_lt in E | apply Nat.ltb_ge in E].
  - replace (3 <? S (List.length dh_survey - 1))%nat with true
      by (symmetry; apply Nat.ltb_lt; lia).
    repeat split; intros; try lia; try reflexivity; try discriminate.
  - replace (3 <? S (List.length dh_survey - 1))%nat with false
      by (symmetry; apply Nat.ltb_ge; lia).
    repeat split; intros; try lia; try reflexivity; try discriminate.
Qed.

(** *** Properties of the draping loops *)

Lemma normalized_map (length : R) (rows : list feature_row) :
  Drape.quotients length rows
  = map (fun r => (fFROM r / length, fTO r / length, fcol r)) rows.
Proof.
  unfold Drape.quotients.
  induction rows as [| r t IH]; simpl; [reflexivity | now rewrite IH].
Qed.

Lemma categorical_flat_map (lib : SplineLib) (t : tck lib)
  (abc : list (R * R * cell)) (points : list point) :
  Drape.categorical lib t abc points
  = points ++ flat_map (categorical_segment lib t) abc.
Proof.
  revert points.
  induction abc as [| [[a b] col] rest IH]; intros points; simpl.
  - now rewrite app_nil_r.
  - rewrite IH, <- app_assoc. reflexivity.
Qed.

Lemma numeric_loop_flat_map (lib : SplineLib) (t : tck lib)
  (abc : list (R * R * cell)) (points : list point) :
  Drape.numeric_loop lib t abc points
  = points ++ flat_map (numeric_segment lib t) abc.
Proof.
  revert points.
  induction abc as [| [[a b] col] rest IH]; intros points; simpl.
  - now rewrite app_nil_r.
  - rewrite IH, <- app_assoc. reflexivity.
Qed.

Lemma numeric_flat_map (lib : SplineLib) (t : tck lib)
  (abc : list (R * R * cell)) (points : list point) :
  Drape.numeric lib t abc points
  = points ++ flat_map (numeric_segment lib t) abc ++ [gap NaN].
Proof.
  unfold Drape.numeric. now rewrite numeric_loop_flat_map, <- app_assoc.
Qed.

(** Blocks of a fixed size [k]: where the [j]-th element of block [i] is. *)
Lemma nth_error_flat_map_blocks {A B : Type} (f : A -> list B) (k : nat)
  (l : list A) :
  (forall x, List.length (f x) = k) ->
  List.length (flat_map f l) = (k * List.length l)%nat
  /\ forall i j x,
      nth_error l i = Some x -> (j < k)%nat ->
      nth_error (flat_map f l) (k * i + j) = nth_error (f x) j.
Proof.
  intros Hk. induction l as [| y t [IHl IHn]]; simpl.
  - split; [lia | ]. intros i j x H. destruct i; discriminate.
  - split.
    + rewrite length_app, IHl, Hk. lia.
    + intros i j x H Hj. destruct i as [| i]; simpl in H.
      * injection H as ->. rewrite Nat.mul_0_r, Nat.add_0_l.
        apply nth_error_app1. rewrite Hk. exact Hj.
      * rewrite nth_error_app2 by (rewrite Hk; lia).
        rewrite Hk.
        replace (k * S i + j - k)%nat with (k * i + j)%nat by lia.
        now apply IHn.
Qed.

Lemma categorical_segment_length (lib : SplineLib) (t : tck lib)
  (x : R * R * cell) :
  List.length (categorical_segment lib t x) = 3%nat.
Proof. destruct x as [[a b] col]. reflexivity. Qed.

Lemma numeric_segment_length (lib : SplineLib) (t : tck lib)
  (x : R * R * cell) :
  List.length (numeric_segment lib t x) = 2%nat.
Proof. destruct x as [[a b] col]. reflexivity. Qed.

Lemma is_gap_at_position (p : vec3) (col : cell) :
  is_gap (at_position p col) = false.
Proof. destruct p as [[x y] z]. reflexivity. Qed.

Lemma nth_error_normalized (length : R) (rows : list feature_row) (i : nat)
  (r : feature_row) :
  nth_error rows i = Some r ->
  nth_error (Drape.quotients length rows) i
  = Some (fFROM r / length, fTO r / length, fcol r).
Proof.
  intros H. rewrite normalized_map, nth_error_map, H. reflexivity.
Qed.

(** The points of interval [i] in the output of both loops: the curve is
    sampled at [FROM / length] and [TO / length] as they are. *)
Lemma categorical_interval (lib : SplineLib) (t : tck lib) (length : R)
  (rows : list feature_row) (i : nat) (r : feature_row) :
  nth_error rows i = Some r ->
  let out := Drape.categorical lib t (Drape.quotients length rows) [] in
  nth_error out (3 * i)
  = Some (at_position (splev lib (fFROM r / length) t) (fcol r))
  /\ nth_error out (3 * i + 1)
     = Some (at_position (splev lib (fTO r / length) t) (fcol r))
  /\ nth_error out (3 * i + 2) = Some (gap (fcol r)).
Proof.
  intros H out. subst out.
  rewrite categorical_flat_map. cbn [app].
  destruct (nth_error_flat_map_blocks (categorical_segment lib t) 3
              (Drape.quotients length rows)
              (categorical_segment_length lib t)) as [_ Hn].
  pose proof (nth_error_normalized length rows i r H) as Hi.
  repeat split.
  - rewrite <- (Nat.add_0_r (3 * i)).
    rewrite (Hn i 0%nat _ Hi) by lia. reflexivity.
  - rewrite (Hn i 1%nat _ Hi) by lia. reflexivity.
  - rewrite (Hn i 2%nat _ Hi) by lia. reflexivity.
Qed.

Lemma numeric_interval (lib : SplineLib) (t : tck lib) (length : R)
  (rows : list feature_row) (i : nat) (r : feature_row) :
  nth_error rows i = Some r ->
  let out := Drape.numeric lib t (Drape.quotients length rows) [] in
  nth_error out (2 * i)
  = Some (at_position (splev lib (fFROM r / length) t) (fcol r))
  /\ nth_error out (2 * i + 1)
     = Some (at_position (splev lib (fTO r / length) t) (fcol r)).
Proof.
  intros H out. subst out.
  rewrite numeric_flat_map. cbn [app].
  destruct (nth_error_flat_map_blocks (numeric_segment lib t) 2
              (Drape.quotients length rows)
              (numeric_segment_length lib t)) as [Hl Hn].
  pose proof (nth_error_normalized length rows i r H) as Hi.
  assert (Hlt : (i < List.length (Drape.quotients length rows))%nat)
    by (apply nth_error_Some; rewrite Hi; discriminate).
  split.
  - rewrite nth_error_app1 by (rewrite Hl; lia).
    rewrite <- (Nat.add_0_r (2 * i)).
    rewrite (Hn i 0%nat _ Hi) by lia. reflexivity.
  - rewrite nth_error_app1 by (rewrite Hl; lia).
    rewrite (Hn i 1%nat _ Hi) by lia. reflexivity.
Qed.

Lemma categorical_emitted (lib : SplineLib) (t : tck lib)
  (abc : list (R * R * cell)) (points : list point) :
  Drape.categorical lib t abc points
  = points ++ Drape.categorical lib t abc [].
Proof. now rewrite !categorical_flat_map. Qed.

Lemma numeric_emitted (lib : SplineLib) (t : tck lib)
  (abc : list (R * R * cell)) (points : list point) :
  Drape.numeric lib t abc points = points ++ Drape.numeric lib t abc [].
Proof. now rewrite !numeric_flat_map. Qed.

Lemma length_normalized (length : R) (rows : list feature_row) :
  List.length (Drape.quotients length rows) = List.length rows.
Proof. now rewrite normalized_map, length_map. Qed.

Lemma length_categorical (lib : SplineLib) (t : tck lib) (length : R)
  (rows : list feature_row) :
  List.length (Drape.categorical lib t (Drape.quotients length rows) [])
  = (3 * List.length rows)%nat.
Proof.
  rewrite categorical_flat_map. cbn [app].
  destruct (nth_error_flat_map_blocks (categorical_segment lib t) 3
              (Drape.quotients length rows)
              (categorical_segment_length lib t)) as [Hl _].
  now rewrite Hl, length_normalized.
Qed.

Lemma length_numeric (lib : SplineLib) (t : tck lib) (length : R)
  (rows : list feature_row) :
  List.length (Drape.numeric lib t (Drape.quotients length rows) [])
  = (2 * List.length rows + 1)%nat.
Proof.
  rewrite numeric_flat_map. cbn [app]. rewrite length_app.
  destruct (nth_error_flat_map_blocks (numeric_segment lib t) 2
              (Drape.quotients length rows)
              (numeric_segment_length lib t)) as [Hl _].
  now rewrite Hl, length_normalized.
Qed.

(** What the two loops add to [points] for the quotients of [N] rows. *)
Lemma quotient_point_counts (lib : SplineLib) (t : tck lib) (length : R)
  (dh_feature : list feature_row) (points : list point) :
  let N := List.length dh_feature in
  let abc := Drape.quotients length dh_feature in
  (exists emitted : list point,
      Drape.categorical lib t abc points = points ++ emitted
      /\ List.length emitted = (3 * N)%nat
      /\ (forall i r, nth_error dh_feature i = Some r ->
                      nth_error emitted (3 * i + 2) = Some (gap (fcol r)))
      /\ (forall i k, (i < N)%nat -> (k < 2)%nat ->
                      exists p, nth_error emitted (3 * i + k) = Some p
                                /\ is_gap p = false))
  /\ (exists emitted : list point,
         Drape.numeric lib t abc points = points ++ emitted
         /\ List.length emitted = (2 * N + 1)%nat
         /\ nth_error emitted (2 * N) = Some (gap NaN)
         /\ (forall j, (j < 2 * N)%nat ->
                       exists p, nth_error emitted j = Some p
                                 /\ is_gap p = false)).
Proof.
  intros N abc. subst N abc. split.
  - exists (Drape.categorical lib t (Drape.quotients length dh_feature) []).
    split; [apply categorical_emitted | ].
    split; [apply length_categorical | ].
    split.
    + intros i r H. now apply categorical_interval.
    + intros i k Hi Hk.
      destruct (nth_error dh_feature i) as [r |] eqn:E;
        [ | apply nth_error_None in E; lia].
      destruct (categorical_interval lib t length dh_feature i r E)
        as (H0 & H1 & _).
      destruct k as [| [| k]]; [ | | lia].
      * rewrite Nat.add_0_r, H0. eexists; split; [reflexivity | ].
        apply is_gap_at_position.
      * rewrite H1. eexists; split; [reflexivity | ].
        apply is_gap_at_position.
  - exists (Drape.numeric lib t (Drape.quotients length dh_feature) []).
    split; [apply numeric_emitted | ].
    split; [apply length_numeric | ].
    split.
    + rewrite numeric_flat_map. cbn [app].
      destruct (nth_error_flat_map_blocks (numeric_segment lib t) 2
                  (Drape.quotients length dh_feature)
                  (numeric_segment_length lib t)) as [Hl _].
      rewrite nth_error_app2 by (rewrite Hl, length_normalized; lia).
      rewrite Hl, length_normalized, Nat.sub_diag. reflexivity.
    + intros j Hj.
      pose proof (Nat.div_mod_eq j 2) as Hdm.
      pose proof (Nat.mod_upper_bound j 2 ltac:(lia)) as Hm.
      destruct (nth_error dh_feature (j / 2)) as [r |] eqn:E;
        [ | apply nth_error_None in E; lia].
      destruct (numeric_interval lib t length dh_feature (j / 2) r E)
        as (H0 & H1).
      destruct (j mod 2)%nat as [| [| k]] eqn:Em; [ | | lia].
      * rewrite Hdm, Nat.add_0_r, H0. eexists; split; [reflexivity | ].
        apply is_gap_at_position.
      * rewrite Hdm, H1. eexists; split; [reflexivity | ].
        apply is_gap_at_position.
Qed.

(** *** The division by the total length *)

Lemma divide_all_nonzero (xs : list R) (length : R) :
  length <> 0 ->
  Drape.divide_all xs length = Ok (map (fun x => x / length) xs).
Proof.
  intros Hl. induction xs as [| x rest IH]; [reflexivity | ].
  cbn [Drape.divide_all map]. unfold Drape.divide at 1.
  destruct (Req_dec_T length 0) as [E | _]; [contradiction | ].
  cbn [bind]. rewrite IH. reflexivity.
Qed.

Lemma normalized_nonzero (length : R) (rows : list feature_row) :
  length <> 0 ->
  Drape.normalized length rows = Ok (Drape.quotients length rows).
Proof.
  intros Hl. unfold Drape.normalized, Drape.quotients.
  rewrite !divide_all_nonzero by assumption. cbn [bind].
  now rewrite !map_map.
Qed.

Lemma normalized_zero (rows : list feature_row) :
  rows <> [] -> Drape.normalized 0 rows = Raise ZeroDivisionError.
Proof.
  destruct rows as [| r t]; [contradiction | intros _].
  unfold Drape.normalized. cbn [map Drape.divide_all].
  unfold Drape.divide at 1.
  destruct (Req_dec_T 0 0) as [_ | H]; [reflexivity | ].
  exfalso. now apply H.
Qed.

Lemma total_length_nonempty (rows : list feature_row) (length : R) :
  Drape.total_length rows = Ok length -> (1 <= List.length rows)%nat.
Proof.
  destruct rows as [| r t]; [discriminate | ]. intros _. simpl. lia.
Qed.

Lemma intervals_nonzero (rows : list feature_row) (length : R) :
  Drape.total_length rows = Ok length ->
  length <> 0 ->
  Drape.intervals rows = Ok (Drape.quotients length rows).
Proof.
  intros Hm Hl. unfold Drape.intervals. rewrite Hm. cbn [bind].
  now apply normalized_nonzero.
Qed.

(** C3: for a drillhole with [N] feature intervals whose largest [TO] is
    not zero (so that [N >= 1] and the division succeeds) the categorical
    loop emits exactly [3N] points, of which point [3i+2] is the gap marker
    of interval [i] (null position, the interval's value) and the others
    have a position; the numeric loop with its final append emits exactly
    [2N+1] points, of which the last is the gap marker with null position
    and not-a-number value and the others have a position. *)
Theorem drape_point_counts (lib : SplineLib) (t : tck lib)
  (dh_feature : list feature_row) (length : R) (points : list point) :
  Drape.total_length dh_feature = Ok length ->
  length <> 0 ->
  let N := List.length dh_feature in
  exists abc : list (R * R * cell),
    Drape.intervals dh_feature = Ok abc
    /\ (1 <= N)%nat
    /\ (exists emitted : list point,
          Drape.categorical lib t abc points = points ++ emitted
          /\ List.length emitted = (3 * N)%nat
          /\ (forall i r, nth_error dh_feature i = Some r ->
                          nth_error emitted (3 * i + 2) = Some (gap (fcol r)))
          /\ (forall i k, (i < N)%nat -> (k < 2)%nat ->
                          exists p, nth_error emitted (3 * i + k) = Some p
                                    /\ is_gap p = false))
    /\ (exists emitted : list point,
          Drape.numeric lib t abc points = points ++ emitted
          /\ List.length emitted = (2 * N + 1)%nat
          /\ nth_error emitted (2 * N) = Some (gap NaN)
          /\ (forall j, (j < 2 * N)%nat ->
                        exists p, nth_error emitted j = Some p
                                  /\ is_gap p = false)).
Proof.
  intros Hm Hl N. subst N.
  exists (Drape.quotients length dh_feature).
  split; [now apply intervals_nonzero | ].
  split; [now apply (total_length_nonempty _ length) | ].
  apply quotient_point_counts.
Qed.

Lemma drape_point_counts_witness :
  Drape.total_length Examples.dh1_rows = Ok (Rmax 50 100)
  /\ Rmax 50 100 <> 0
  /\ exists abc : list (R * R * cell),
      Drape.intervals Examples.dh1_rows = Ok abc
      /\ List.length (Drape.categorical Examples.chord_lib
                        (Examples.dh1_curve "DH1") abc [])
         = 6%nat.
Proof.
  assert (Hm : Drape.total_length Examples.dh1_rows = Ok (Rmax 50 100))
    by reflexivity.
  assert (Hl : Rmax 50 100 <> 0)
    by (pose proof (Rmax_r 50 100); lra).
  split; [exact Hm | ]. split; [exact Hl | ].
  destruct (drape_point_counts Examples.chord_lib (Examples.dh1_curve "DH1")
              Examples.dh1_rows (Rmax 50 100) [] Hm Hl)
    as (abc & Habc & _ & (emitted & He & Hn & _) & _).
  exists abc. split; [exact Habc | ].
  rewrite He. exact Hn.
Defined.

(** *** Normalization by the total length *)

Lemma fold_left_Rmax_ge (l : list R) (x : R) :
  x <= fold_left Rmax l x
  /\ forall y, In y l -> y <= fold_left Rmax l x.
Proof.
  revert x. induction l as [| z t IH]; intros x; simpl.
  - split; [lra | intros y []].
  - destruct (IH (Rmax x z)) as [H1 H2].
    pose proof (Rmax_l x z). pose proof (Rmax_r x z).
    split; [lra | ].
    intros y [-> | Hy]; [lra | now apply H2].
Qed.

Lemma fold_left_Rmax_in (l : list R) (x : R) :
  fold_left Rmax l x = x \/ In (fold_left Rmax l x) l.
Proof.
  revert x. induction l as [| z t IH]; intros x; simpl.
  - now left.
  - destruct (IH (Rmax x z)) as [H | H]; [ | now right; right].
    rewrite H. unfold Rmax. destruct (Rle_dec x z); [right | ]; now left.
Qed.

Lemma array_max_spec (l : list R) :
  l <> [] ->
  exists m, array_max l = Ok m /\ In m l /\ forall y, In y l -> y <= m.
Proof.
  intros Hl. destruct l as [| x t]; [contradiction | ].
  exists (fold_left Rmax t x). simpl.
  split; [reflexivity | ].
  destruct (fold_left_Rmax_ge t x) as [H1 H2].
  split.
  - destruct (fold_left_Rmax_in t x) as [H | H]; [left; now rewrite H | now right].
  - intros y [<- | Hy]; [exact H1 | now apply H2].
Qed.



(** *** The loops of [get_points] over the drillholes *)

Section Loops.

Variable lib : SplineLib.
Variables (collar : list collar_row) (survey : list survey_row).
Variable rows : list feature_row.
Variable curve : string -> tck lib.
Variable abc : string -> list (R * R * cell).

Lemma loop_categorical_ok (holes : list string) (points : list point) :
  (forall dh, In dh holes ->
              hole_setup lib collar survey rows dh = Ok (curve dh, abc dh)) ->
  loop_categorical lib collar survey rows holes points
  = Ok (points
        ++ flat_map (fun dh => hole_points lib "categorical" (curve dh) (abc dh))
                    holes).
Proof.
  revert points. induction holes as [| dh rest IH]; intros points Hs; simpl.
  - now rewrite app_nil_r.
  - rewrite (Hs dh) by now left. cbn [bind fst snd].
    rewrite IH by (intros dh' H'; apply Hs; now right).
    rewrite categorical_flat_map, <- app_assoc. reflexivity.
Qed.

Lemma loop_numeric_ok (holes : list string) (points : list point) :
  (forall dh, In dh holes ->
              hole_setup lib collar survey rows dh = Ok (curve dh, abc dh)) ->
  loop_numeric lib collar survey rows holes points
  = Ok (points
        ++ flat_map (fun dh => hole_points lib "numeric" (curve dh) (abc dh))
                    holes).
Proof.
  revert points. induction holes as [| dh rest IH]; intros points Hs; simpl.
  - now rewrite app_nil_r.
  - rewrite (Hs dh) by now left. cbn [bind fst snd].
    rewrite IH by (intros dh' H'; apply Hs; now right).
    rewrite numeric_flat_map, <- !app_assoc.
    unfold hole_points at 2. cbn [String.eqb Ascii.eqb Bool.eqb].
    rewrite <- !app_assoc. reflexivity.
Qed.

(** A drillhole whose setup raises stops the loop, at that drillhole or at
    an earlier one. *)
Lemma loop_categorical_raises (holes : list string) (points : list point)
  (dh : string) :
  In dh holes ->
  (exists e, hole_setup lib collar survey rows dh = Raise e) ->
  exists e, loop_categorical lib collar survey rows holes points = Raise e.
Proof.
  revert points. induction holes as [| h rest IH]; intros points Hin He.
  - destruct Hin.
  - simpl. destruct (hole_setup lib collar survey rows h) as [s | e] eqn:E.
    + cbn [bind]. destruct Hin as [-> | Hin].
      * destruct He as [e He]. congruence.
      * now apply IH.
    + now exists e.
Qed.

Lemma loop_numeric_raises (holes : list string) (points : list point)
  (dh : string) :
  In dh holes ->
  (exists e, hole_setup lib collar survey rows dh = Raise e) ->
  exists e, loop_numeric lib collar survey rows holes points = Raise e.
Proof.
  revert points. induction holes as [| h rest IH]; intros points Hin He.
  - destruct Hin.
  - simpl. destruct (hole_setup lib collar survey rows h) as [s | e] eqn:E.
    + cbn [bind]. destruct Hin as [-> | Hin].
      * destruct He as [e He]. congruence.
      * now apply IH.
    + now exists e.
Qed.

End Loops.

(** *** Names of drillholes *)

Lemma mem_In (x : string) (l : list string) : mem x l = true <-> In x l.
Proof.
  unfold mem. rewrite existsb_exists. split.
  - intros (y & Hy & E). apply String.eqb_eq in E. now subst.
  - intros H. exists x. split; [exact H | apply String.eqb_refl].
Qed.

Lemma In_unique_from (x : string) (seen l : list string) :
  In x (unique_from seen l) <-> In x l /\ mem x seen = false.
Proof.
  revert seen. induction l as [| y t IH]; intros seen; simpl.
  - tauto.
  - destruct (mem y seen) eqn:E.
    + rewrite IH. split.
      * intros [H1 H2]. tauto.
      * intros [[-> | H1] H2]; [congruence | tauto].
    + simpl. rewrite IH. simpl.
      destruct (String.eqb x y) eqn:Exy.
      * apply String.eqb_eq in Exy. subst y. simpl. tauto.
      * apply String.eqb_neq in Exy. simpl.
        split.
        -- intros [-> | [H1 H2]]; [congruence | tauto].
        -- intros [[-> | H1] H2]; [congruence | tauto].
Qed.

Lemma In_unique (x : string) (l : list string) : In x (unique l) <-> In x l.
Proof. unfold unique. rewrite In_unique_from. simpl. tauto. Qed.

Lemma filter_filter_and {A : Type} (p q : A -> bool) (l : list A) :
  filter p (filter q l) = filter (fun x => q x && p x) l.
Proof.
  induction l as [| a t IH]; simpl; [reflexivity | ].
  destruct (q a); simpl; [destruct (p a) | ]; now rewrite IH.
Qed.

Lemma unique_from_filter (seen l : list string) :
  unique_from seen l = filter (fun y => negb (mem y seen)) (unique l).
Proof.
  unfold unique. revert seen.
  induction l as [| x t IH]; intros seen; [reflexivity | ].
  cbn [unique_from mem existsb]. rewrite (IH [x]).
  cbn [filter]. fold (mem x seen).
  destruct (mem x seen) eqn:E; cbn [negb].
  - rewrite IH, filter_filter_and. apply filter_ext_in. intros y _.
    cbn [mem existsb]. rewrite orb_false_r.
    destruct (String.eqb y x) eqn:Eyx; [ | reflexivity].
    apply String.eqb_eq in Eyx. subst y. now rewrite E.
  - f_equal. rewrite IH, filter_filter_and. apply filter_ext. intros y.
    cbn [mem existsb]. rewrite orb_false_r.
    destruct (String.eqb y x); reflexivity.
Qed.

(** [unique] keeps the first occurrence of each name, in place. *)
Lemma unique_cons (x : string) (l : list string) :
  unique (x :: l) = x :: filter (fun y => negb (String.eqb y x)) (unique l).
Proof.
  unfold unique at 1. cbn [unique_from mem existsb].
  rewrite unique_from_filter. f_equal. apply filter_ext. intros y.
  cbn [mem existsb]. now rewrite orb_false_r.
Qed.

Lemma In_set_xor (x : string) (a b : list string) :
  In x (set_xor a b) <-> (In x a /\ ~ In x b) \/ (In x b /\ ~ In x a).
Proof.
  unfold set_xor. rewrite in_app_iff, !filter_In, !negb_true_iff.
  rewrite <- !mem_In, !not_true_iff_false. tauto.
Qed.

Lemma In_set_union (x : string) (a b : list string) :
  In x (set_union a b) <-> In x a \/ In x b.
Proof. unfold set_union. now rewrite In_unique, in_app_iff. Qed.

Lemma inhabited_length {A : Type} (x : A) (l : list A) :
  In x l -> (List.length l =? 0)%nat = false.
Proof. destruct l; simpl; [intros [] | reflexivity]. Qed.

Lemma NoDup_unique_from (seen l : list string) : NoDup (unique_from seen l).
Proof.
  revert seen. induction l as [| x t IH]; intros seen; cbn [unique_from].
  - constructor.
  - destruct (mem x seen) eqn:E; [apply IH | ].
    constructor; [ | apply IH].
    rewrite In_unique_from. intros [_ H].
    cbn [mem existsb] in H. now rewrite String.eqb_refl in H.
Qed.

Lemma filter_split {A : Type} (p : A -> bool) (l h1 h2 : list A) (a : A) :
  filter p l = h1 ++ a :: h2 ->
  exists l1 l2, l = l1 ++ a :: l2 /\ filter p l1 = h1 /\ filter p l2 = h2.
Proof.
  revert h1. induction l as [| x t IH]; intros h1 H.
  - destruct h1; discriminate.
  - cbn [filter] in H. destruct (p x) eqn:E.
    + destruct h1 as [| y h1'].
      * injection H as -> H. exists [], t. cbn. now rewrite H.
      * injection H as -> H. destruct (IH h1' H) as (l1 & l2 & -> & H1 & H2).
        exists (y :: l1), l2. cbn [app filter]. rewrite E, H1. now split.
    + destruct (IH h1 H) as (l1 & l2 & -> & H1 & H2).
      exists (x :: l1), l2. cbn [app filter]. rewrite E, H1. now split.
Qed.

(** [unique] lists the names in the order of their first occurrence. *)
Lemma unique_first_appearance (ids : list string) :
  first_appearance_order ids (unique ids).
Proof.
  split; [apply NoDup_unique_from | ].
  split; [intros x; apply In_unique | ].
  induction ids as [| x l IH]; intros h1 a h2 b Hsplit Hb.
  - destruct h1; discriminate.
  - rewrite unique_cons in Hsplit. destruct h1 as [| y h1'].
    + injection Hsplit as <- _. exists [], l. now split.
    + injection Hsplit as <- Hf.
      destruct (filter_split _ _ _ _ _ Hf) as (u1 & u2 & Hu & _ & Hu2).
      assert (Ha : In a (filter (fun y => negb (String.eqb y x)) (unique l)))
        by (rewrite Hf; apply in_or_app; right; now left).
      assert (Hb' : In b (filter (fun y => negb (String.eqb y x)) (unique l)))
        by (rewrite Hf; apply in_or_app; right; now right).
      apply filter_In in Ha, Hb'.
      destruct Ha as [_ Hax], Hb' as [_ Hbx].
      apply negb_true_iff, String.eqb_neq in Hax, Hbx.
      assert (Hb2 : In b u2).
      { rewrite <- Hu2 in Hb. apply filter_In in Hb. tauto. }
      destruct (IH u1 a u2 b Hu Hb2) as (l1 & l2 & -> & Hn1 & Hn2).
      exists (x :: l1), l2. split; [reflexivity | ].
      split; intros [H | H]; congruence || tauto.
Qed.

Lemma index_of_nth (l : list string) (i : nat) (x : string) :
  NoDup l -> nth_error l i = Some x -> index_of x l = Some i.
Proof.
  intros Hnd. revert i. induction Hnd as [| y t Hy Hnd IH]; intros i Hi.
  - destruct i; discriminate.
  - cbn [index_of]. destruct i as [| i]; cbn [nth_error] in Hi.
    + injection Hi as ->. now rewrite String.eqb_refl.
    + destruct (String.eqb y x) eqn:E.
      * apply String.eqb_eq in E. subst y. apply nth_error_In in Hi.
        contradiction.
      * rewrite (IH i Hi). reflexivity.
Qed.

(** *** Running [get_points] *)

Lemma hole_setup_run (lib : SplineLib) (collar : list collar_row)
  (survey : list survey_row) (rows : list feature_row) (dh : string)
  (c : vec3) (t : tck lib) (length : R) :
  hole_collar collar dh = Ok c ->
  Trajectory.fit lib c (hole_survey survey dh) = Ok t ->
  Drape.total_length (hole_feature rows dh) = Ok length ->
  length <> 0 ->
  hole_setup lib collar survey rows dh
  = Ok (t, Drape.quotients length (hole_feature rows dh)).
Proof.
  intros Hc Hf Hm Hl. unfold hole_setup.
  rewrite Hc. cbn [bind]. rewrite Hf. cbn [bind].
  rewrite (intervals_nonzero _ length Hm Hl). reflexivity.
Qed.

(** [get_points] past its gate and the selection of the feature: the
    loop of the branch decides the outcome. *)
Lemma get_points_categorical (lib : SplineLib) (self : DrillData)
  (feature : string) (rows : list feature_row) :
  validated self = true ->
  select_feature (table self) feature = Ok rows ->
  get_points lib self feature "categorical"
  = match loop_categorical lib (collar self) (survey self) rows
            (unique (map sID (survey self))) [] with
    | Ok pts =>
        (set_points (set_feature self feature "categorical") pts, Returned)
    | Raise e => (set_feature self feature "categorical", Raised e)
    end.
Proof.
  intros Hv Hsel. unfold get_points. rewrite Hv. cbn [negb].
  cbn [set_feature table survey collar]. rewrite Hsel.
  cbn [String.eqb Ascii.eqb Bool.eqb].
  destruct (loop_categorical _ _ _ _ _ _); reflexivity.
Qed.

Lemma get_points_numeric (lib : SplineLib) (self : DrillData)
  (feature : string) (rows : list feature_row) :
  validated self = true ->
  select_feature (table self) feature = Ok rows ->
  get_points lib self feature "numeric"
  = match loop_numeric lib (collar self) (survey self) rows
            (unique (map sID (survey self))) [] with
    | Ok pts =>
        (set_points (set_feature self feature "numeric") pts, Returned)
    | Raise e => (set_feature self feature "numeric", Raised e)
    end.
Proof.
  intros Hv Hsel. unfold get_points. rewrite Hv. cbn [negb].
  cbn [set_feature table survey collar]. rewrite Hsel.
  cbn [String.eqb Ascii.eqb Bool.eqb].
  destruct (loop_numeric _ _ _ _ _ _); reflexivity.
Qed.

(** *** The order of the output *)

Lemma dh1_length_nonzero : Rmax 50 100 <> 0.
Proof. pose proof (Rmax_r 50 100). lra. Qed.


Lemma filter_map_comm {A B : Type} (f : A -> B) (p : B -> bool)
  (l : list A) :
  filter p (map f l) = map f (filter (fun x => p (f x)) l).
Proof.
  induction l as [| a t IH]; [reflexivity | ].
  cbn [map filter]. destruct (p (f a)); cbn [map]; now rewrite IH.
Qed.

Lemma categorical_rows_quotients (lib : SplineLib) (t : tck lib)
  (length : R) (i : nat) (rows : list table_row) :
  flat_map (categorical_segment lib t)
    (Drape.quotients length
       (map (fun r => mkFeature (tID r) (tFROM r) (tTO r)
                                (nth i (tvals r) NaN)) rows))
  = categorical_rows lib t length i rows.
Proof.
  unfold categorical_rows, Drape.quotients.
  induction rows as [| r rest IH]; [reflexivity | ].
  cbn [map zip3 flat_map fFROM fTO fcol categorical_segment app].
  now rewrite IH.
Qed.

Lemma numeric_rows_quotients (lib : SplineLib) (t : tck lib)
  (length : R) (i : nat) (rows : list table_row) :
  flat_map (numeric_segment lib t)
    (Drape.quotients length
       (map (fun r => mkFeature (tID r) (tFROM r) (tTO r)
                                (nth i (tvals r) NaN)) rows))
  ++ [gap NaN]
  = numeric_rows lib t length i rows.
Proof.
  unfold numeric_rows, Drape.quotients. f_equal.
  induction rows as [| r rest IH]; [reflexivity | ].
  cbn [map zip3 flat_map fFROM fTO fcol numeric_segment app].
  now rewrite IH.
Qed.

(** C9: when every drillhole has a collar row, a curve that [splprep]
    fits and feature rows whose largest [TO] is not zero, [points] is the
    concatenation of the points of the drillholes, taken in the order in
    which their names first appear in the survey table; the points of a
    drillhole follow the rows of the feature table with its name, in table
    order, three per row (categorical) or two per row and one gap marker
    after the last (numeric). *)
Theorem get_points_order (lib : SplineLib) (self : DrillData)
  (feature : string) (i : nat) (curve : string -> tck lib)
  (len : string -> R) :
  validated self = true ->
  NoDup (feature_cols (table self)) ->
  nth_error (feature_cols (table self)) i = Some feature ->
  (forall dh, In dh (map sID (survey self)) ->
     exists c, hole_collar (collar self) dh = Ok c
               /\ Trajectory.fit lib c (hole_survey (survey self) dh)
                  = Ok (curve dh)) ->
  (forall dh, In dh (map sID (survey self)) ->
     let tos := map tTO (filter (fun r => String.eqb (tID r) dh)
                                (table_rows (table self))) in
     In (len dh) tos /\ (forall y, In y tos -> y <= len dh)
     /\ len dh <> 0) ->
  exists holes : list string,
    first_appearance_order (map sID (survey self)) holes
    /\ get_points lib self feature "categorical"
       = (set_points (set_feature self feature "categorical")
            (flat_map
               (fun dh =>
                  categorical_rows lib (curve dh) (len dh) i
                    (filter (fun r => String.eqb (tID r) dh)
                            (table_rows (table self))))
               holes),
          Returned)
    /\ get_points lib self feature "numeric"
       = (set_points (set_feature self feature "numeric")
            (flat_map
               (fun dh =>
                  numeric_rows lib (curve dh) (len dh) i
                    (filter (fun r => String.eqb (tID r) dh)
                            (table_rows (table self))))
               holes),
          Returned).
Proof.
  intros Hv Hnd Hi Hfit Hlen.
  set (conv := fun r => mkFeature (tID r) (tFROM r) (tTO r)
                                  (nth i (tvals r) NaN)).
  set (rows := map conv (table_rows (table self))).
  assert (Hsel : select_feature (table self) feature = Ok rows).
  { unfold select_feature. now rewrite (index_of_nth _ i feature Hnd Hi). }
  assert (Hhole : forall dh,
    hole_feature rows dh
    = map conv (filter (fun r => String.eqb (tID r) dh)
                       (table_rows (table self)))).
  { intros dh. unfold hole_feature, rows. now rewrite filter_map_comm. }
  assert (Hsetup : forall dh, In dh (unique (map sID (survey self))) ->
    hole_setup lib (collar self) (survey self) rows dh
    = Ok (curve dh, Drape.quotients (len dh) (hole_feature rows dh))).
  { intros dh Hdh. apply (proj1 (In_unique _ _)) in Hdh.
    destruct (Hfit dh Hdh) as (c & Hc & Hf).
    destruct (Hlen dh Hdh) as (Hin & Hmax & Hnz).
    apply (hole_setup_run lib _ _ _ _ c); try assumption.
    unfold Drape.total_length. rewrite Hhole, map_map.
    change (fun x => fTO (conv x)) with tTO.
    destruct (array_max_spec
                (map tTO (filter (fun r => String.eqb (tID r) dh)
                                 (table_rows (table self)))))
      as (m & -> & Hm & Hmmax).
    { intros E. rewrite E in Hin. destruct Hin. }
    f_equal. apply Rle_antisym; [now apply Hmax | now apply Hmmax]. }
  exists (unique (map sID (survey self))).
  split; [apply unique_first_appearance | ].
  split.
  - rewrite (get_points_categorical lib self feature rows Hv Hsel).
    rewrite (loop_categorical_ok lib _ _ rows curve
               (fun dh => Drape.quotients (len dh) (hole_feature rows dh))
               _ [] Hsetup).
    cbn [app]. do 2 f_equal. apply flat_map_ext. intros dh.
    rewrite Hhole. unfold hole_points.
    cbn [String.eqb Ascii.eqb Bool.eqb].
    apply categorical_rows_quotients.
  - rewrite (get_points_numeric lib self feature rows Hv Hsel).
    rewrite (loop_numeric_ok lib _ _ rows curve
               (fun dh => Drape.quotients (len dh) (hole_feature rows dh))
               _ [] Hsetup).
    cbn [app]. do 2 f_equal. apply flat_map_ext. intros dh.
    rewrite Hhole. unfold hole_points.
    cbn [String.eqb Ascii.eqb Bool.eqb].
    apply numeric_rows_quotients.
Qed.

Lemma get_points_order_witness :
  validated Examples.alternating = true
  /\ nth_error (feature_cols (table Examples.alternating)) 0
     = Some "LITH"%string
  /\ exists holes : list string,
      first_appearance_order (map sID (survey Examples.alternating)) holes
      /\ get_points Examples.chord_lib Examples.alternating
                    "LITH" "categorical"
         = (set_points
              (set_feature Examples.alternating "LITH" "categorical")
              (flat_map
                 (fun dh =>
                    categorical_rows Examples.chord_lib
                      (Examples.alternating_curve dh)
                      (Examples.alternating_length dh) 0
                      (filter (fun r => String.eqb (tID r) dh)
                              (table_rows (table Examples.alternating))))
                 holes),
            Returned).
Proof.
  assert (Hv : validated Examples.alternating = true) by reflexivity.
  assert (Hi : nth_error (feature_cols (table Examples.alternating)) 0
               = Some "LITH"%string) by reflexivity.
  assert (Hnd : NoDup (feature_cols (table Examples.alternating))).
  { simpl. constructor; [intros [] | constructor]. }
  split; [exact Hv | ]. split; [exact Hi | ].
  destruct (get_points_order Examples.chord_lib Examples.alternating "LITH"
              0%nat Examples.alternating_curve Examples.alternating_length
              Hv Hnd Hi) as (holes & Ho & Hc & _).
  - intros dh [<- | [<- | [<- | [<- | []]]]];
      eexists; split; reflexivity.
  - intros dh [<- | [<- | [<- | [<- | []]]]];
      unfold Examples.alternating_length; simpl;
      (split; [tauto | ]);
      (split; [intros y Hy; intuition lra | lra]).
  - exists holes. split; [exact Ho | exact Hc].
Defined.

(** The two drillholes of [alternating]: [B], whose survey row comes
    first, is drawn first, and the two intervals of [A] follow in the
    order of the feature table although a row of [B] lies between them. *)
Example alternating_order :
  exists pts,
    get_points Examples.chord_lib Examples.alternating "LITH" "categorical"
    = (set_points (set_feature Examples.alternating "LITH" "categorical")
                  pts,
       Returned)
    /\ map pval pts
       = [Label "SILT"; Label "SILT"; Label "SILT";
          Label "ORE"; Label "ORE"; Label "ORE";
          Label "WASTE"; Label "WASTE"; Label "WASTE"].
Proof.
  set (rows := [mkFeature "A" 0 50 (Label "ORE");
                mkFeature "B" 0 80 (Label "SILT");
                mkFeature "A" 50 100 (Label "WASTE")]).
  assert (HB : hole_setup Examples.chord_lib (collar Examples.alternating)
                 (survey Examples.alternating) rows "B"
               = Ok (Examples.alternating_curve "B",
                     Drape.quotients 80 (hole_feature rows "B"))).
  { apply (hole_setup_run Examples.chord_lib _ _ _ _ (10, 0, 0)
             (Examples.alternating_curve "B") 80);
      [reflexivity | reflexivity | reflexivity | lra]. }
  assert (HA : hole_setup Examples.chord_lib (collar Examples.alternating)
                 (survey Examples.alternating) rows "A"
               = Ok (Examples.alternating_curve "A",
                     Drape.quotients (Rmax 50 100) (hole_feature rows "A"))).
  { apply (hole_setup_run Examples.chord_lib _ _ _ _ (0, 0, 0)
             (Examples.alternating_curve "A") (Rmax 50 100));
      [reflexivity | reflexivity | reflexivity | apply dh1_length_nonzero]. }
  eexists. split.
  - rewrite (get_points_categorical Examples.chord_lib Examples.alternating
               "LITH" rows eq_refl eq_refl).
    change (unique (map sID (survey Examples.alternating)))
      with ["B"; "A"]%string.
    cbn [loop_categorical]. rewrite HB. cbn [bind fst snd].
    rewrite HA. cbn [bind fst snd]. reflexivity.
  - reflexivity.
Qed.

(** *** The validation gate *)

Lemma get_points_gate (lib : SplineLib) (self : DrillData)
  (feature dtype : string) :
  validated self = false ->
  get_points lib self feature dtype = (self, Returned).
Proof. intros H. unfold get_points. now rewrite H. Qed.

Lemma validate_survey_tables (self : DrillData) :
  collar (validate_survey self) = collar self
  /\ survey (validate_survey self) = survey self
  /\ table (validate_survey self) = table self
  /\ points (validate_survey self) = points self
  /\ has_points (validate_survey self) = has_points self.
Proof.
  unfold validate_survey.
  destruct (validated self); cbn [negb]; [ | tauto].
  destruct (List.length (one_row_dh self) =? 0)%nat; cbn; tauto.
Qed.

Lemma validate_ID_tables (self : DrillData) :
  collar (validate_ID self) = collar self
  /\ survey (validate_ID self) = survey self
  /\ table (validate_ID self) = table self
  /\ points (validate_ID self) = points self
  /\ has_points (validate_ID self) = has_points self.
Proof.
  unfold validate_ID.
  destruct (validated self); cbn [negb]; [ | tauto].
  destruct (List.length (extra_dh self) =? 0)%nat; cbn; tauto.
Qed.

Lemma validate_ID_keeps_false (self : DrillData) :
  validated self = false -> validate_ID self = self.
Proof. intros H. unfold validate_ID. now rewrite H. Qed.

Lemma validate_survey_one_row (self : DrillData) (dh : string) :
  In dh (map sID (survey self)) ->
  (survey_count self dh <= 1)%nat ->
  validated (validate_survey self) = false.
Proof.
  intros Hin Hc. unfold validate_survey.
  destruct (validated self) eqn:Hv; cbn [negb]; [ | exact Hv].
  assert (H1 : In dh (one_row_dh self)).
  { unfold one_row_dh. apply filter_In. split.
    - now apply In_unique.
    - now apply Nat.leb_le. }
  rewrite (inhabited_length dh _ H1). reflexivity.
Qed.

Lemma validate_ID_extra (self : DrillData) (dh : string) :
  In dh (map sID (survey self)) ->
  ~ In dh (map tID (table_rows (table self))) ->
  validated (validate_ID self) = false.
Proof.
  intros Hs Ht. unfold validate_ID.
  destruct (validated self) eqn:Hv; cbn [negb]; [ | exact Hv].
  assert (H1 : In dh (extra_dh self)).
  { unfold extra_dh. apply In_set_union. left. apply In_set_union. right.
    apply In_set_xor. right. rewrite !In_unique. tauto. }
  rewrite (inhabited_length dh _ H1). reflexivity.
Qed.

Lemma validate_content_tables (self : DrillData) :
  points (validate_content self) = points self
  /\ has_points (validate_content self) = has_points self.
Proof.
  unfold validate_content.
  destruct (validate_ID_tables (validate_survey self)) as (_ & _ & _ & Hp & Hh).
  destruct (validate_survey_tables self) as (_ & _ & _ & Hp' & Hh').
  split; congruence.
Qed.

(** C7 (as the code has it): when some drillhole of the survey table has a
    single survey row, [validate_survey] clears [validated], the flag stays
    cleared through [validate_ID], and [get_points] then returns at its
    gate for every feature and dtype: no points are computed for any
    drillhole and [points] and [has_points] are left as they were. *)
Theorem one_station_hole_refuses_batch (lib : SplineLib) (self : DrillData)
  (dh : string) :
  In dh (map sID (survey self)) ->
  (survey_count self dh <= 1)%nat ->
  validated (validate_survey self) = false
  /\ validated (validate_content self) = false
  /\ (forall feature dtype,
         get_points lib (validate_content self) feature dtype
         = (validate_content self, Returned))
  /\ points (validate_content self) = points self
  /\ has_points (validate_content self) = has_points self.
Proof.
  intros Hin Hc.
  pose proof (validate_survey_one_row self dh Hin Hc) as H1.
  assert (H2 : validated (validate_content self) = false).
  { unfold validate_content. now rewrite validate_ID_keeps_false. }
  split; [exact H1 | ]. split; [exact H2 | ].
  split; [intros; now apply get_points_gate | ].
  apply validate_content_tables.
Qed.

Lemma one_station_hole_refuses_batch_witness :
  In "B"%string (map sID (survey Examples.one_station_batch))
  /\ (survey_count Examples.one_station_batch "B" <= 1)%nat
  /\ validated (validate_content Examples.one_station_batch) = false.
Proof.
  assert (Hin : In "B"%string (map sID (survey Examples.one_station_batch)))
    by (simpl; tauto).
  assert (Hc : (survey_count Examples.one_station_batch "B" <= 1)%nat)
    by (vm_compute; lia).
  split; [exact Hin | ]. split; [exact Hc | ].
  exact (proj1 (proj2 (one_station_hole_refuses_batch
                         Examples.chord_lib Examples.one_station_batch "B"
                         Hin Hc))).
Defined.

(** C7, the claim at a concrete batch: drillhole [B] has one survey row and
    drillhole [A] is well formed, and after validation [get_points] leaves
    the object without any points, also for [A]. *)
Lemma one_station_batch_no_output :
  survey_count Examples.one_station_batch "B" = 1%nat
  /\ survey_count Examples.one_station_batch "A" = 2%nat
  /\ get_points Examples.chord_lib
       (validate_content Examples.one_station_batch) "LITH" "categorical"
     = (validate_content Examples.one_station_batch, Returned)
  /\ ~ (exists pts,
          points (fst (get_points Examples.chord_lib
                         (validate_content Examples.one_station_batch)
                         "LITH" "categorical"))
          = Some pts)
  /\ has_points (fst (get_points Examples.chord_lib
                        (validate_content Examples.one_station_batch)
                        "LITH" "categorical"))
     = false.
Proof.
  assert (Hg : get_points Examples.chord_lib
                 (validate_content Examples.one_station_batch)
                 "LITH" "categorical"
               = (validate_content Examples.one_station_batch, Returned))
    by reflexivity.
  split; [reflexivity | ]. split; [reflexivity | ]. split; [exact Hg | ].
  rewrite Hg. split; [ | reflexivity].
  intros [pts H]. discriminate H.
Qed.

(** *** Drillholes without feature rows *)

Lemma select_feature_IDs (t : Table) (feature : string)
  (rows : list feature_row) :
  select_feature t feature = Ok rows ->
  map fID rows = map tID (table_rows t).
Proof.
  unfold select_feature.
  destruct (index_of feature (feature_cols t)) as [i |].
  - intros H. injection H as <-. rewrite map_map. reflexivity.
  - destruct (String.eqb feature "FROM");
      [ | destruct (String.eqb feature "TO"); [ | discriminate]];
      intros H; injection H as <-; rewrite map_map; reflexivity.
Qed.

Lemma hole_feature_absent (rows : list feature_row) (dh : string) :
  ~ In dh (map fID rows) -> hole_feature rows dh = [].
Proof.
  unfold hole_feature. induction rows as [| r t IH]; simpl; intros H.
  - reflexivity.
  - destruct (String.eqb (fID r) dh) eqn:E.
    + apply String.eqb_eq in E. tauto.
    + apply IH. tauto.
Qed.

Lemma hole_setup_no_rows (lib : SplineLib) (collar : list collar_row)
  (survey : list survey_row) (rows : list feature_row) (dh : string) :
  hole_feature rows dh = [] ->
  exists e, hole_setup lib collar survey rows dh = Raise e.
Proof.
  intros H. unfold hole_setup.
  destruct (hole_collar collar dh) as [c | e]; cbn [bind]; [ | now exists e].
  destruct (Trajectory.fit lib c (hole_survey survey dh)) as [t | e];
    cbn [bind]; [ | now exists e].
  rewrite H. cbn. now exists ValueError.
Qed.

Lemma hole_setup_zero_length (lib : SplineLib) (collar : list collar_row)
  (survey : list survey_row) (rows : list feature_row) (dh : string)
  (c : vec3) (t : tck lib) :
  hole_collar collar dh = Ok c ->
  Trajectory.fit lib c (hole_survey survey dh) = Ok t ->
  Drape.total_length (hole_feature rows dh) = Ok 0 ->
  hole_setup lib collar survey rows dh = Raise ZeroDivisionError.
Proof.
  intros Hc Hf Hm. unfold hole_setup.
  rewrite Hc. cbn [bind]. rewrite Hf. cbn [bind].
  unfold Drape.intervals. rewrite Hm. cbn [bind].
  rewrite normalized_zero; [reflexivity | ].
  intros E. rewrite E in Hm. discriminate.
Qed.

Lemma no_feature_batch_setup_A :
  hole_setup Examples.chord_lib (collar Examples.no_feature_batch)
    (survey Examples.no_feature_batch)
    [mkFeature "A" 0 100 (Label "ORE")] "A"
  = Ok (Trajectory.knots (0, 0, 0) [(0, 0, 90); (100, 0, 90)],
        Drape.quotients 100
          (hole_feature [mkFeature "A" 0 100 (Label "ORE")] "A")).
Proof.
  apply (hole_setup_run Examples.chord_lib _ _ _ _ (0, 0, 0)
           (Trajectory.knots (0, 0, 0) [(0, 0, 90); (100, 0, 90)]) 100);
    [reflexivity | reflexivity | reflexivity | lra].
Qed.

Lemma no_feature_batch_categorical :
  get_points Examples.chord_lib Examples.no_feature_batch
             "LITH" "categorical"
  = (set_feature Examples.no_feature_batch "LITH" "categorical",
     Raised ValueError).
Proof.
  rewrite (get_points_categorical Examples.chord_lib
             Examples.no_feature_batch "LITH"
             [mkFeature "A" 0 100 (Label "ORE")] eq_refl eq_refl).
  change (unique (map sID (survey Examples.no_feature_batch)))
    with ["A"; "B"]%string.
  cbn [loop_categorical]. rewrite no_feature_batch_setup_A.
  cbn [bind fst snd]. reflexivity.
Qed.

Lemma no_feature_batch_numeric :
  get_points Examples.chord_lib Examples.no_feature_batch "LITH" "numeric"
  = (set_feature Examples.no_feature_batch "LITH" "numeric",
     Raised ValueError).
Proof.
  rewrite (get_points_numeric Examples.chord_lib
             Examples.no_feature_batch "LITH"
             [mkFeature "A" 0 100 (Label "ORE")] eq_refl eq_refl).
  change (unique (map sID (survey Examples.no_feature_batch)))
    with ["A"; "B"]%string.
  cbn [loop_numeric]. rewrite no_feature_batch_setup_A.
  cbn [bind fst snd]. reflexivity.
Qed.

(** C3, the claim at concrete inputs: for a drillhole without feature rows
    ([N = 0]) the largest [TO] is not defined and the numeric branch is
    left by [ValueError] instead of adding its one gap marker; for a
    validated drillhole whose single interval has [TO = 0] ([N = 1]) the
    division is left by [ZeroDivisionError] instead of three points being
    added.  [points] is not assigned in either run. *)
Lemma drape_without_points :
  Drape.intervals [] = Raise ValueError
  /\ get_points Examples.chord_lib Examples.no_feature_batch
                "LITH" "numeric"
     = (set_feature Examples.no_feature_batch "LITH" "numeric",
        Raised ValueError)
  /\ validated (validate_content Examples.zero_to) = true
  /\ Drape.intervals [Examples.zero_to_row] = Raise ZeroDivisionError
  /\ get_points Examples.chord_lib Examples.zero_to "LITH" "categorical"
     = (set_feature Examples.zero_to "LITH" "categorical",
        Raised ZeroDivisionError).
Proof.
  split; [reflexivity | ].
  split; [apply no_feature_batch_numeric | ].
  split; [reflexivity | ].
  split.
  - unfold Drape.intervals.
    change (Drape.total_length [Examples.zero_to_row]) with (@Ok R 0).
    cbn [bind]. apply normalized_zero. discriminate.
  - rewrite (get_points_categorical Examples.chord_lib Examples.zero_to
               "LITH" [Examples.zero_to_row] eq_refl eq_refl).
    change (unique (map sID (survey Examples.zero_to))) with ["A"%string].
    cbn [loop_categorical].
    rewrite (hole_setup_zero_length Examples.chord_lib _ _ _ _ (0, 0, 0)
               (Trajectory.knots (0, 0, 0) [(0, 0, 90); (100, 0, 90)]));
      reflexivity.
Qed.

(** C8 (as the code has it): when a drillhole of the survey table has no
    row in the feature table, [validate_ID] clears [validated] and
    [get_points] returns at its gate for every feature and dtype, with no
    points for any drillhole; and when [get_points] runs on such data with
    the flag set, for the dtype ["categorical"] or ["numeric"] and a
    feature other than [ID], an exception leaves it and [points] is not
    assigned.  No point is produced for the drillhole in either case. *)
Theorem featureless_hole_refuses_batch (lib : SplineLib) (self : DrillData)
  (dh : string) :
  In dh (map sID (survey self)) ->
  ~ In dh (map tID (table_rows (table self))) ->
  validated (validate_content self) = false
  /\ (forall feature dtype,
         get_points lib (validate_content self) feature dtype
         = (validate_content self, Returned))
  /\ points (validate_content self) = points self
  /\ (validated self = true ->
      forall feature dtype,
        feature <> "ID"%string ->
        dtype = "categorical"%string \/ dtype = "numeric"%string ->
        exists e, get_points lib self feature dtype
                  = (set_feature self feature dtype, Raised e)).
Proof.
  intros Hs Ht.
  assert (H1 : validated (validate_content self) = false).
  { unfold validate_content.
    destruct (validate_survey_tables self) as (_ & Hsv & Htb & _).
    apply (validate_ID_extra _ dh); [now rewrite Hsv | now rewrite Htb]. }
  split; [exact H1 | ].
  split; [intros; now apply get_points_gate | ].
  split; [apply validate_content_tables | ].
  intros Hv feature dtype _ Hd. unfold get_points.
  rewrite Hv. cbn [negb]. cbn [set_feature table survey collar].
  destruct (select_feature (table self) feature) as [rows | e] eqn:Hsel;
    [ | now exists e].
  assert (Hraise : exists e,
    hole_setup lib (collar self) (survey self) rows dh = Raise e).
  { apply hole_setup_no_rows, hole_feature_absent.
    now rewrite (select_feature_IDs _ _ _ Hsel). }
  assert (Hdh : In dh (unique (map sID (survey self))))
    by now apply In_unique.
  destruct Hd as [-> | ->]; cbn [String.eqb Ascii.eqb Bool.eqb].
  - destruct (loop_categorical_raises lib _ _ rows _ [] dh Hdh Hraise)
      as [e He].
    rewrite He. now exists e.
  - destruct (loop_numeric_raises lib _ _ rows _ [] dh Hdh Hraise)
      as [e He].
    rewrite He. now exists e.
Qed.

Lemma featureless_hole_refuses_batch_witness :
  In "B"%string (map sID (survey Examples.no_feature_batch))
  /\ ~ In "B"%string (map tID (table_rows (table Examples.no_feature_batch)))
  /\ validated (validate_content Examples.no_feature_batch) = false.
Proof.
  assert (Hin : In "B"%string (map sID (survey Examples.no_feature_batch)))
    by (simpl; tauto).
  assert (Hout : ~ In "B"%string
                   (map tID (table_rows (table Examples.no_feature_batch))))
    by (simpl; intros [H | []]; discriminate H).
  split; [exact Hin | ]. split; [exact Hout | ].
  exact (proj1 (featureless_hole_refuses_batch
                  Examples.chord_lib Examples.no_feature_batch "B" Hin Hout)).
Defined.

(** C8, the claim at a concrete batch: drillhole [B] has no feature row and
    drillhole [A] has one; after validation [get_points] produces no points
    at all, and run on the data as flagged it ends with [ValueError] before
    [points] is assigned, so that [A] gets no output either. *)
Lemma no_feature_batch_aborts :
  hole_feature [mkFeature "A" 0 100 (Label "ORE")] "B" = []
  /\ get_points Examples.chord_lib
       (validate_content Examples.no_feature_batch) "LITH" "categorical"
     = (validate_content Examples.no_feature_batch, Returned)
  /\ points (validate_content Examples.no_feature_batch) = None
  /\ get_points Examples.chord_lib Examples.no_feature_batch
                "LITH" "categorical"
     = (set_feature Examples.no_feature_batch "LITH" "categorical",
        Raised ValueError)
  /\ get_points Examples.chord_lib Examples.no_feature_batch
                "LITH" "numeric"
     = (set_feature Examples.no_feature_batch "LITH" "numeric",
        Raised ValueError).
Proof.
  split; [reflexivity | ]. split; [reflexivity | ]. split; [reflexivity | ].
  split; [apply no_feature_batch_categorical | apply no_feature_batch_numeric].
Qed.

(** *** Sampling outside the unit interval *)

(** C6 (as the code has it): when the largest [TO] of a drillhole is not
    zero, the loops hand [FROM / length] and [TO / length] to [splev] as
    they are, whatever their value, and put the returned position into
    [points]; no parameter is rejected and no range error is raised. *)
Theorem samples_are_not_range_checked (lib : SplineLib) (t : tck lib)
  (dh_feature : list feature_row) (length : R) (i : nat) (r : feature_row) :
  Drape.total_length dh_feature = Ok length ->
  length <> 0 ->
  nth_error dh_feature i = Some r ->
  let p1 := at_position (splev lib (fFROM r / length) t) (fcol r) in
  let p2 := at_position (splev lib (fTO r / length) t) (fcol r) in
  exists abc : list (R * R * cell),
    Drape.intervals dh_feature = Ok abc
    /\ nth_error (Drape.categorical lib t abc []) (3 * i) = Some p1
    /\ nth_error (Drape.categorical lib t abc []) (3 * i + 1) = Some p2
    /\ nth_error (Drape.numeric lib t abc []) (2 * i) = Some p1
    /\ nth_error (Drape.numeric lib t abc []) (2 * i + 1) = Some p2.
Proof.
  intros Hm Hl H p1 p2. subst p1 p2.
  exists (Drape.quotients length dh_feature).
  split; [now apply intervals_nonzero | ].
  destruct (categorical_interval lib t length dh_feature i r H)
    as (C0 & C1 & _).
  destruct (numeric_interval lib t length dh_feature i r H) as (N0 & N1).
  repeat split; assumption.
Qed.

Lemma samples_are_not_range_checked_witness :
  Drape.total_length [Examples.negative_from_row] = Ok 100
  /\ 100 <> 0
  /\ nth_error [Examples.negative_from_row] 0 = Some Examples.negative_from_row
  /\ exists abc : list (R * R * cell),
      Drape.intervals [Examples.negative_from_row] = Ok abc
      /\ nth_error (Drape.categorical Examples.chord_lib
                      Examples.negative_from_curve abc []) 0
         = Some (at_position
                   (splev Examples.chord_lib (-10 / 100)
                          Examples.negative_from_curve)
                   (Label "ORE")).
Proof.
  assert (Hm : Drape.total_length [Examples.negative_from_row] = Ok 100)
    by reflexivity.
  assert (Hl : 100 <> 0) by lra.
  assert (H : nth_error [Examples.negative_from_row] 0
              = Some Examples.negative_from_row) by reflexivity.
  split; [exact Hm | ]. split; [exact Hl | ]. split; [exact H | ].
  destruct (samples_are_not_range_checked
              Examples.chord_lib Examples.negative_from_curve
              [Examples.negative_from_row] 100 0%nat
              Examples.negative_from_row Hm Hl H)
    as (abc & Habc & H0 & _).
  exists abc. split; [exact Habc | exact H0].
Defined.

(** C6, the claim at a concrete input: the only interval of the validated
    drillhole starts at [FROM = -10], the curve is sampled at
    [u = -10 / 100 < 0], and [get_points] returns normally with the point
    that [splev] gave for that [u]. *)
Lemma sample_below_range_not_rejected :
  validated (validate_content Examples.negative_from) = true
  /\ -10 / 100 < 0
  /\ get_points Examples.chord_lib Examples.negative_from
                "LITH" "categorical"
     = (set_points (set_feature Examples.negative_from "LITH" "categorical")
          [at_position
             (splev Examples.chord_lib (-10 / 100)
                    Examples.negative_from_curve)
             (Label "ORE");
           at_position
             (splev Examples.chord_lib (100 / 100)
                    Examples.negative_from_curve)
             (Label "ORE");
           gap (Label "ORE")],
        Returned).
Proof.
  split; [reflexivity | ]. split; [lra | ].
  assert (HA : hole_setup Examples.chord_lib
                 (collar Examples.negative_from)
                 (survey Examples.negative_from)
                 [Examples.negative_from_row] "A"
               = Ok (Examples.negative_from_curve,
                     Drape.quotients 100
                       (hole_feature [Examples.negative_from_row] "A"))).
  { apply (hole_setup_run Examples.chord_lib _ _ _ _ (0, 0, 0)
             Examples.negative_from_curve 100);
      [reflexivity | reflexivity | reflexivity | lra]. }
  rewrite (get_points_categorical Examples.chord_lib Examples.negative_from
             "LITH" [Examples.negative_from_row] eq_refl eq_refl).
  change (unique (map sID (survey Examples.negative_from)))
    with ["A"%string].
  cbn [loop_categorical]. rewrite HA. cbn [bind fst snd].
  reflexivity.
Qed.

(** *** An unknown dtype *)

Lemma index_of_In (x : string) (l : list string) :
  In x l -> exists i, index_of x l = Some i.
Proof.
  induction l as [| y t IH]; simpl; [intros [] | ].
  intros H. destruct (String.eqb y x) eqn:E; [now exists 0%nat | ].
  apply String.eqb_neq in E.
  destruct H as [H | H]; [contradiction | ].
  destruct (IH H) as [i Hi]. rewrite Hi. now exists (S i).
Qed.

(** C10: on validated data, for a feature that is a column of the table,
    a dtype other than ["categorical"] and ["numeric"] makes [get_points]
    return without an exception, with an empty [points] frame and
    [has_points] set. *)
Theorem get_points_unknown_dtype (lib : SplineLib) (self : DrillData)
  (feature dtype : string) :
  validated self = true ->
  In feature (feature_cols (table self)) ->
  dtype <> "categorical"%string ->
  dtype <> "numeric"%string ->
  snd (get_points lib self feature dtype) = Returned
  /\ points (fst (get_points lib self feature dtype)) = Some []
  /\ has_points (fst (get_points lib self feature dtype)) = true
  /\ feature_dtype (fst (get_points lib self feature dtype)) = Some dtype.
Proof.
  intros Hv Hf Hc Hn. unfold get_points.
  rewrite Hv. cbn [negb]. cbn [set_feature table survey collar].
  unfold select_feature.
  destruct (index_of_In feature _ Hf) as [i Hi]. rewrite Hi.
  apply String.eqb_neq in Hc, Hn. rewrite Hc, Hn.
  repeat split.
Qed.

Lemma get_points_unknown_dtype_witness :
  validated Examples.dh1 = true
  /\ In "LITH"%string (feature_cols (table Examples.dh1))
  /\ points (fst (get_points Examples.chord_lib Examples.dh1
                             "LITH" "categoric"))
     = Some []
  /\ has_points (fst (get_points Examples.chord_lib Examples.dh1
                                 "LITH" "categoric"))
     = true.
Proof.
  assert (Hv : validated Examples.dh1 = true) by reflexivity.
  assert (Hf : In "LITH"%string (feature_cols (table Examples.dh1)))
    by (simpl; tauto).
  split; [exact Hv | ]. split; [exact Hf | ].
  destruct (get_points_unknown_dtype Examples.chord_lib Examples.dh1
              "LITH" "categoric" Hv Hf ltac:(discriminate) ltac:(discriminate))
    as (_ & Hp & Hh & _).
  split; [exact Hp | exact Hh].
Defined.

(** *** The worked scenario *)

Lemma dh1_setup :
  hole_setup Examples.chord_lib (collar Examples.dh1) (survey Examples.dh1)
             Examples.dh1_rows "DH1"
  = Ok (Examples.dh1_curve "DH1",
        Drape.quotients (Rmax 50 100)
                        (hole_feature Examples.dh1_rows "DH1")).
Proof.
  apply (hole_setup_run Examples.chord_lib _ _ _ _ Examples.dh1_collar
           (Examples.dh1_curve "DH1") (Rmax 50 100));
    [reflexivity | reflexivity | reflexivity | apply dh1_length_nonzero].
Qed.

Lemma dh1_categorical :
  get_points Examples.chord_lib Examples.dh1 "LITH" "categorical"
  = (set_points (set_feature Examples.dh1 "LITH" "categorical")
       (Drape.categorical Examples.chord_lib (Examples.dh1_curve "DH1")
          (Drape.quotients (Rmax 50 100) Examples.dh1_rows) []),
     Returned).
Proof.
  rewrite (get_points_categorical Examples.chord_lib Examples.dh1 "LITH"
             Examples.dh1_rows eq_refl eq_refl).
  change (unique (map sID (survey Examples.dh1))) with ["DH1"%string].
  cbn [loop_categorical]. rewrite dh1_setup. cbn [bind fst snd].
  reflexivity.
Qed.

(** Drillhole [DH1] with three stations and the intervals [ORE] and
    [WASTE]: three knots starting at the collar, degree 1, and six points
    of which the third and the sixth are the gap markers of the two
    intervals. *)
Example dh1_end_to_end :
  exists pts,
    get_points Examples.chord_lib Examples.dh1 "LITH" "categorical"
    = (set_points (set_feature Examples.dh1 "LITH" "categorical") pts,
       Returned)
    /\ List.length pts = 6%nat
    /\ nth_error pts 2 = Some (gap (Label "ORE"))
    /\ nth_error pts 5 = Some (gap (Label "WASTE"))
    /\ Trajectory.degree Examples.dh1_stations = 1%nat
    /\ unique (map sID (survey Examples.dh1)) = ["DH1"%string].
Proof.
  eexists. split; [apply dh1_categorical | ].
  repeat split.
Qed.

(** * Further properties of the program *)

(** ** The segment solver *)

(** X1: the displacement is proportional to the distance: scaling [d] by
    [c] scales the vector by [c]; a distance of zero gives the zero
    vector. *)
Theorem xyz_scales_with_distance (c d az1 dip1 az2 dip2 : R) :
  Segment.xyz (c * d) az1 dip1 az2 dip2
  = vscale c (Segment.xyz d az1 dip1 az2 dip2)
  /\ Segment.xyz 0 az1 dip1 az2 dip2 = vzero.
Proof.
  unfold Segment.xyz, vscale, vzero. cbv zeta.
  split; (f_equal; [f_equal | ]); ring.
Qed.

Lemma dogleg_sym (az1 dip1 az2 dip2 : R) :
  Segment.dogleg az1 dip1 az2 dip2 = Segment.dogleg az2 dip2 az1 dip1.
Proof.
  unfold Segment.dogleg. f_equal.
  replace (dip2 - dip1) with (- (dip1 - dip2)) by ring.
  replace (az2 - az1) with (- (az1 - az2)) by ring.
  rewrite !cos_neg. ring.
Qed.

(** X2: the displacement does not depend on the order of the two
    stations. *)
Theorem xyz_symmetric (d az1 dip1 az2 dip2 : R) :
  Segment.xyz d az1 dip1 az2 dip2 = Segment.xyz d az2 dip2 az1 dip1
  /\ Segment.xyz_dl az1 dip1 az2 dip2 = Segment.xyz_dl az2 dip2 az1 dip1.
Proof.
  unfold Segment.xyz, Segment.xyz_dl. cbv zeta.
  rewrite (dogleg_sym (Segment.radians az1)).
  split; [ | reflexivity].
  f_equal; [f_equal | ]; ring.
Qed.

Lemma radians_vertical : Segment.radians (90 - 90) = 0.
Proof. unfold Segment.radians. lra. Qed.

(** X3: between two vertical stations ([dip = 90]) the displacement is
    [d] straight down, whatever the two azimuths are. *)
Theorem xyz_vertical (d az1 az2 : R) :
  Segment.xyz d az1 90 az2 90 = (0, 0, - d)
  /\ Segment.xyz_dl az1 90 az2 90 = 0.
Proof.
  assert (Hdl : Segment.dogleg (Segment.radians az1) 0 (Segment.radians az2) 0
                = 0).
  { unfold Segment.dogleg. rewrite Rminus_diag, cos_0, sin_0.
    replace (1 - 0 * 0 * (1 - cos (Segment.radians az2 - Segment.radians az1)))
      with 1 by ring.
    apply acos_1. }
  unfold Segment.xyz, Segment.xyz_dl. cbv zeta.
  rewrite radians_vertical, Hdl, ratio_0, sin_0, cos_0.
  split; [ | reflexivity].
  f_equal; [f_equal | ]; lra.
Qed.

Lemma radians_turn (az : R) :
  Segment.radians (az + 360) = Segment.radians az + 2 * PI.
Proof. unfold Segment.radians. lra. Qed.

Lemma sin_turn (x : R) : sin (x + 2 * PI) = sin x.
Proof. rewrite sin_plus, sin_2PI, cos_2PI. ring. Qed.

Lemma cos_turn (x : R) : cos (x + 2 * PI) = cos x.
Proof. rewrite cos_plus, sin_2PI, cos_2PI. ring. Qed.

(** X4: a full turn added to the azimuth of either station changes
    nothing. *)
Theorem xyz_azimuth_full_turn (d az1 dip1 az2 dip2 : R) :
  Segment.xyz d (az1 + 360) dip1 az2 dip2 = Segment.xyz d az1 dip1 az2 dip2
  /\ Segment.xyz d az1 dip1 (az2 + 360) dip2
     = Segment.xyz d az1 dip1 az2 dip2.
Proof.
  unfold Segment.xyz, Segment.dogleg. cbv zeta.
  rewrite !radians_turn, !sin_turn, !cos_turn.
  split.
  - replace (Segment.radians az2 - (Segment.radians az1 + 2 * PI))
      with (- (Segment.radians az1 - Segment.radians az2 + 2 * PI)) by ring.
    rewrite cos_neg, cos_turn.
    replace (Segment.radians az1 - Segment.radians az2)
      with (- (Segment.radians az2 - Segment.radians az1)) by ring.
    rewrite cos_neg. reflexivity.
  - replace (Segment.radians az2 + 2 * PI - Segment.radians az1)
      with (Segment.radians az2 - Segment.radians az1 + 2 * PI) by ring.
    rewrite cos_turn. reflexivity.
Qed.

(** ** The trajectory builder *)

Lemma vscale_add (a b : R) (v : vec3) :
  vadd (vscale a v) (vscale b v) = vscale (a + b) v.
Proof.
  destruct v as [[x y] z]. unfold vadd, vscale.
  f_equal; [f_equal | ]; ring.
Qed.

Lemma vscale_zero (v : vec3) : vscale 0 v = vzero.
Proof.
  destruct v as [[x y] z]. unfold vscale, vzero.
  f_equal; [f_equal | ]; ring.
Qed.

Lemma straight_cumsum (az dip base : R) (rest : list station) :
  forall s0 : station,
    (forall s, In s (s0 :: rest) -> st_angles s = (az, dip)) ->
    forall (i : nat) (s : station),
      nth_error rest i = Some s ->
      nth_error
        (cumsum_from (vscale (st_at s0 - base) (Segment.direction az dip))
                     (Trajectory.displacements (s0 :: rest))) i
      = Some (vscale (st_at s - base) (Segment.direction az dip)).
Proof.
  induction rest as [| s1 t IH]; intros s0 Hang i s Hi.
  - destruct i; discriminate.
  - rewrite displacements_step. cbn [cumsum_from].
    assert (Hstep : vadd (vscale (st_at s0 - base) (Segment.direction az dip))
                         (segment s0 s1)
                    = vscale (st_at s1 - base) (Segment.direction az dip)).
    { unfold segment.
      rewrite (Hang s0) by now left.
      rewrite (Hang s1) by (right; now left).
      cbn [fst snd]. rewrite xyz_same_direction, vscale_add.
      f_equal. ring. }
    rewrite Hstep. destruct i as [| i]; cbn [nth_error].
    + simpl in Hi. now injection Hi as <-.
    + apply IH; [ | exact Hi].
      intros s' Hs'. apply Hang. now right.
Qed.

(** X5: in real arithmetic, in a drillhole whose stations all have the
    same azimuth and dip, the knot of every station lies on the straight
    line from the collar along the unit vector of that direction
    (horizontal part [cos dip] towards the azimuth, vertical part
    [- sin dip]), at the distance [AT - AT0] from the collar. *)
Theorem straight_hole_knots (dh_collar : vec3) (az dip : R) (s0 : station)
  (rest : list station) :
  (forall s, In s (s0 :: rest) -> st_angles s = (az, dip)) ->
  forall (i : nat) (s : station),
    nth_error (s0 :: rest) i = Some s ->
    nth_error (Trajectory.knots dh_collar (s0 :: rest)) i
    = Some (vadd (vscale (st_at s - st_at s0) (Segment.direction az dip))
                 dh_collar).
Proof.
  intros Hang i s Hi. unfold Trajectory.knots.
  rewrite nth_error_map. cbn [cumsum].
  destruct i as [| i]; cbn [nth_error option_map].
  - simpl in Hi. injection Hi as <-.
    rewrite Rminus_diag, vscale_zero. reflexivity.
  - simpl in Hi.
    rewrite <- (vscale_zero (Segment.direction az dip)).
    rewrite <- (Rminus_diag (st_at s0)).
    rewrite (straight_cumsum az dip (st_at s0) rest s0 Hang i s Hi).
    reflexivity.
Qed.

Lemma straight_hole_knots_witness :
  (forall s, In s [(0, 30, 60); (40, 30, 60); (100, 30, 60)] ->
             st_angles s = (30, 60))
  /\ nth_error (Trajectory.knots Examples.dh1_collar
                  [(0, 30, 60); (40, 30, 60); (100, 30, 60)]) 2
     = Some (vadd (vscale (st_at (100, 30, 60) - st_at (0, 30, 60))
                          (Segment.direction 30 60))
                  Examples.dh1_collar).
Proof.
  assert (H : forall s, In s [(0, 30, 60); (40, 30, 60); (100, 30, 60)] ->
                        st_angles s = (30, 60)).
  { intros s [<- | [<- | [<- | []]]]; reflexivity. }
  split; [exact H | ].
  exact (straight_hole_knots Examples.dh1_collar 30 60 (0, 30, 60)
           [(40, 30, 60); (100, 30, 60)] H 2%nat (100, 30, 60) eq_refl).
Defined.

Lemma vadd_assoc (u v w : vec3) : vadd (vadd u v) w = vadd u (vadd v w).
Proof.
  destruct u as [[a b] c], v as [[d e] f], w as [[g h] i].
  unfold vadd. f_equal; [f_equal | ]; ring.
Qed.

(** X6: moving the collar by a vector moves every knot by that vector; the
    shape of the trajectory depends on the survey rows only. *)
Theorem knots_translate (dh_collar v : vec3) (dh_survey : list station) :
  Trajectory.knots (vadd dh_collar v) dh_survey
  = map (fun k => vadd k v) (Trajectory.knots dh_collar dh_survey).
Proof.
  unfold Trajectory.knots. rewrite map_map.
  apply map_ext. intros k. symmetry. apply vadd_assoc.
Qed.

(** ** The schema checks *)

Lemma set_validated_tables (self : DrillData) (b : bool) :
  collar (set_validated self b) = collar self
  /\ survey (set_validated self b) = survey self
  /\ table (set_validated self b) = table self
  /\ points (set_validated self b) = points self
  /\ has_points (set_validated self b) = has_points self.
Proof. repeat split. Qed.

Lemma remove_first_length (x : string) (l : list string) :
  mem x l = true ->
  Z.of_nat (List.length (remove_first x l))
  = (Z.of_nat (List.length l) - 1)%Z.
Proof.
  induction l as [| y t IH]; [discriminate | ].
  cbn [mem existsb remove_first]. rewrite String.eqb_sym.
  destruct (String.eqb y x); cbn [orb List.length]; intros H.
  - lia.
  - fold (mem x t) in H. specialize (IH H). cbn [List.length]. lia.
Qed.

Lemma remove_first_NoDup (x : string) (l : list string) :
  NoDup l ->
  remove_first x l = filter (fun y => negb (String.eqb y x)) l.
Proof.
  induction 1 as [| y t Hy Hnd IH]; [reflexivity | ].
  cbn [remove_first filter].
  destruct (String.eqb y x) eqn:E; cbn [negb].
  - apply String.eqb_eq in E. subst y.
    symmetry. apply forallb_filter_id. apply forallb_forall.
    intros z Hz. apply negb_true_iff, String.eqb_neq. congruence.
  - now rewrite IH.
Qed.

(** The counter of [validate_columns] is the length of what is left of
    [columns]. *)
Lemma columns_loop_count (dfcols columns : list string) :
  snd (columns_loop dfcols columns (Z.of_nat (List.length columns)))
  = Z.of_nat (List.length
                (fst (columns_loop dfcols columns
                                   (Z.of_nat (List.length columns))))).
Proof.
  revert columns. induction dfcols as [| col rest IH]; intros columns.
  - reflexivity.
  - cbn [columns_loop]. destruct (mem col columns) eqn:E.
    + rewrite <- (remove_first_length col columns E). apply IH.
    + apply IH.
Qed.

Lemma columns_loop_left (dfcols columns : list string) (count : Z) :
  NoDup columns ->
  fst (columns_loop dfcols columns count)
  = filter (fun c => negb (mem c dfcols)) columns.
Proof.
  revert columns count.
  induction dfcols as [| col rest IH]; intros columns count Hnd.
  - cbn. symmetry. apply forallb_filter_id. apply forallb_forall.
    reflexivity.
  - cbn [columns_loop]. destruct (mem col columns) eqn:E.
    + rewrite IH.
      * rewrite remove_first_NoDup by assumption.
        rewrite filter_filter_and. apply filter_ext. intros c.
        cbn [mem existsb]. fold (mem c rest).
        rewrite negb_orb. reflexivity.
      * rewrite remove_first_NoDup by assumption.
        now apply NoDup_filter.
    + rewrite IH by assumption. apply filter_ext_in. intros c Hc.
      cbn [mem existsb]. fold (mem c rest).
      destruct (String.eqb c col) eqn:Ec; [ | reflexivity].
      apply String.eqb_eq in Ec. subst c.
      apply mem_In in Hc. congruence.
Qed.

Lemma validate_columns_complete (self : DrillData)
  (dfcols columns : list string) :
  NoDup columns ->
  (forall c, In c columns -> In c dfcols) ->
  validate_columns self dfcols columns = set_validated self true.
Proof.
  intros Hnd Hall. unfold validate_columns.
  rewrite columns_loop_count, columns_loop_left by assumption.
  replace (filter (fun c => negb (mem c dfcols)) columns) with (@nil string).
  - reflexivity.
  - symmetry.
    destruct (filter (fun c => negb (mem c dfcols)) columns) as [| c t] eqn:E;
      [reflexivity | ].
    assert (Hc : In c (filter (fun c => negb (mem c dfcols)) columns))
      by (rewrite E; now left).
    apply filter_In in Hc. destruct Hc as [Hc Hm].
    apply negb_true_iff in Hm. apply Hall, mem_In in Hc. congruence.
Qed.

Lemma validate_columns_incomplete (self : DrillData)
  (dfcols columns : list string) (c : string) :
  NoDup columns ->
  In c columns -> ~ In c dfcols ->
  validate_columns self dfcols columns = self.
Proof.
  intros Hnd Hc Hd. unfold validate_columns.
  rewrite columns_loop_count, columns_loop_left by assumption.
  assert (Hin : In c (filter (fun c => negb (mem c dfcols)) columns)).
  { apply filter_In. split; [exact Hc | ].
    apply negb_true_iff, not_true_iff_false. now rewrite mem_In. }
  destruct (filter (fun c => negb (mem c dfcols)) columns); [destruct Hin | ].
  reflexivity.
Qed.

(** X7: [validate_columns] sets [validated] when every required column is
    among the columns of the frame, and otherwise leaves the object as it
    is: it never clears the flag, so a set flag survives a frame with
    missing columns. *)
Theorem validate_columns_flag (self : DrillData)
  (dfcols columns : list string) :
  NoDup columns ->
  ((forall c, In c columns -> In c dfcols) ->
   validate_columns self dfcols columns = set_validated self true)
  /\ ((exists c, In c columns /\ ~ In c dfcols) ->
      validate_columns self dfcols columns = self)
  /\ (validated (validate_columns self dfcols columns) = true
      <-> validated self = true \/ forall c, In c columns -> In c dfcols).
Proof.
  intros Hnd.
  split; [now apply validate_columns_complete | ].
  split.
  { intros (c & Hc & Hd). now apply (validate_columns_incomplete _ _ _ c). }
  destruct (forallb (fun c => mem c dfcols) columns) eqn:E.
  - assert (Hall : forall c, In c columns -> In c dfcols).
    { intros c Hc. apply mem_In.
      now apply (proj1 (forallb_forall _ _) E). }
    rewrite validate_columns_complete by assumption.
    split; [now right | reflexivity].
  - assert (Hex : exists c, In c columns /\ ~ In c dfcols).
    { apply not_true_iff_false in E.
      destruct (existsb (fun c => negb (mem c dfcols)) columns) eqn:Ex.
      - apply existsb_exists in Ex. destruct Ex as (c & Hc & Hm).
        exists c. split; [exact Hc | ].
        apply negb_true_iff in Hm. rewrite <- mem_In. congruence.
      - exfalso. apply E. apply forallb_forall. intros c Hc.
        destruct (mem c dfcols) eqn:Em; [reflexivity | ].
        apply not_true_iff_false in Ex. exfalso. apply Ex.
        apply existsb_exists. exists c. now rewrite Em. }
    destruct Hex as (c & Hc & Hd).
    rewrite (validate_columns_incomplete _ _ _ c) by assumption.
    split; [now left | ].
    intros [H | H]; [exact H | ]. exfalso. apply Hd, H, Hc.
Qed.

Lemma validate_columns_flag_witness :
  NoDup survey_columns
  /\ validate_columns (init [] [] (mkTable [] []) "t")
       ["ID"; "AT"; "DIP"]%string survey_columns
     = init [] [] (mkTable [] []) "t".
Proof.
  assert (Hnd : NoDup survey_columns).
  { unfold survey_columns.
    repeat (constructor; [simpl; intuition discriminate | ]).
    constructor. }
  split; [exact Hnd | ].
  apply (proj1 (proj2 (validate_columns_flag
                         (init [] [] (mkTable [] []) "t")
                         ["ID"; "AT"; "DIP"]%string survey_columns Hnd))).
  exists "AZ"%string. split; [simpl; tauto | ].
  simpl. intuition discriminate.
Defined.


Lemma dict_get_present (col : string) (d : schema) :
  In col (map fst d) -> exists v, dict_get col d = Ok v /\ In (col, v) d.
Proof.
  induction d as [| [c v] t IH]; [intros [] | ].
  cbn [dict_get map fst In]. intros H.
  destruct (String.eqb c col) eqn:E.
  - apply String.eqb_eq in E. subst c. exists v. split; [reflexivity | now left].
  - apply String.eqb_neq in E. destruct H as [H | H]; [contradiction | ].
    destruct (IH H) as (w & Hw & Hin). exists w. split; [exact Hw | now right].
Qed.

Lemma NoDup_keys_functional (d : schema) (col v w : string) :
  NoDup (map fst d) -> In (col, v) d -> In (col, w) d -> v = w.
Proof.
  induction d as [| [c u] t IH]; [intros _ [] | ].
  cbn [map fst]. intros Hnd Hv Hw. inversion Hnd as [| ? ? Hc Hnd']; subst.
  destruct Hv as [Hv | Hv], Hw as [Hw | Hw].
  - congruence.
  - injection Hv as -> ->. exfalso. apply Hc.
    apply (in_map fst) in Hw. exact Hw.
  - injection Hw as -> ->. exfalso. apply Hc.
    apply (in_map fst) in Hv. exact Hv.
  - now apply IH.
Qed.




Lemma datatypes_loop_present (df_dtypes : schema)
  (dtypes : list (string * string)) (count : Z) :
  (forall col, In col (map fst dtypes) -> In col (map fst df_dtypes)) ->
  exists n : Z,
    (0 <= n)%Z
    /\ datatypes_loop df_dtypes dtypes count = Ok (count + n)%Z
    /\ (n = 0%Z <->
        forall col dtype, In (col, dtype) dtypes ->
                          dict_get col df_dtypes = Ok dtype).
Proof.
  revert count. induction dtypes as [| [c t] rest IH]; intros count Hall.
  - exists 0%Z. cbn. split; [lia | ]. split; [f_equal; lia | ].
    split; [intros _ col dtype [] | reflexivity].
  - assert (Hrest : forall col, In col (map fst rest) ->
                                In col (map fst df_dtypes))
      by (intros col H; apply Hall; now right).
    destruct (dict_get_present c df_dtypes (Hall c (or_introl eq_refl)))
      as (v & Hv & _).
    cbn [datatypes_loop]. rewrite Hv. cbn [bind].
    destruct (String.eqb v t) eqn:E.
    + apply String.eqb_eq in E. subst v.
      destruct (IH count Hrest) as (n & Hn & Hloop & Hiff).
      exists n. split; [exact Hn | ]. split; [exact Hloop | ].
      rewrite Hiff. split.
      * intros H col dtype [Heq | Hin]; [ | now apply H].
        injection Heq as <- <-. exact Hv.
      * intros H col dtype Hin. apply H. now right.
    + apply String.eqb_neq in E.
      destruct (IH (count + 1)%Z Hrest) as (n & Hn & Hloop & _).
      exists (1 + n)%Z. split; [lia | ].
      split; [rewrite Hloop; f_equal; lia | ].
      split; [lia | ].
      intros H. specialize (H c t (or_introl eq_refl)). congruence.
Qed.

(** X9: when [validated] is set and the frame has all the columns asked
    about, [validate_datatypes] returns normally and decides the flag
    afresh: it is set when every dtype is the required one and cleared
    otherwise. *)
Theorem validate_datatypes_flag (self : DrillData) (df_dtypes : schema)
  (dtypes : list (string * string)) :
  validated self = true ->
  NoDup (map fst df_dtypes) ->
  (forall col, In col (map fst dtypes) -> In col (map fst df_dtypes)) ->
  exists b : bool,
    validate_datatypes self df_dtypes dtypes
    = (set_validated self b, Returned)
    /\ (b = true <->
        forall col dtype, In (col, dtype) dtypes ->
                          In (col, dtype) df_dtypes).
Proof.
  intros Hv Hnd Hall. unfold validate_datatypes. rewrite Hv. cbn [negb].
  destruct (datatypes_loop_present df_dtypes dtypes 0%Z Hall)
    as (n & Hn & Hloop & Hiff).
  rewrite Hloop.
  assert (Hget : (forall col dtype, In (col, dtype) dtypes ->
                                    dict_get col df_dtypes = Ok dtype)
                 <-> (forall col dtype, In (col, dtype) dtypes ->
                                        In (col, dtype) df_dtypes)).
  { split; intros H col dtype Hin.
    - destruct (dict_get_present col df_dtypes) as (v & Hv' & Hin').
      { apply Hall. apply (in_map fst) in Hin. exact Hin. }
      rewrite (H col dtype Hin) in Hv'. injection Hv' as <-. exact Hin'.
    - destruct (dict_get_present col df_dtypes) as (v & Hv' & Hin').
      { apply Hall. apply (in_map fst) in Hin. exact Hin. }
      rewrite Hv'. f_equal.
      apply (NoDup_keys_functional df_dtypes col v dtype Hnd Hin').
      now apply H. }
  destruct (0 + n =? 0)%Z eqn:E.
  - exists true. split; [reflexivity | ].
    rewrite <- Hget, <- Hiff. split; [intros _; lia | reflexivity].
  - exists false. split; [reflexivity | ].
    rewrite <- Hget, <- Hiff. split; [discriminate | lia].
Qed.

Lemma validate_datatypes_flag_witness :
  validated Examples.dh1 = true
  /\ NoDup (map fst collar_dtypes)
  /\ exists b : bool,
      validate_datatypes Examples.dh1 collar_dtypes collar_dtypes
      = (set_validated Examples.dh1 b, Returned).
Proof.
  assert (Hv : validated Examples.dh1 = true) by reflexivity.
  assert (Hnd : NoDup (map fst collar_dtypes)).
  { simpl. repeat (constructor; [simpl; intuition discriminate | ]).
    constructor. }
  split; [exact Hv | ]. split; [exact Hnd | ].
  destruct (validate_datatypes_flag Examples.dh1 collar_dtypes collar_dtypes
              Hv Hnd (fun col H => H)) as (b & Hb & _).
  exists b. exact Hb.
Defined.

(** ** The content checks *)

Lemma length_eqb_zero {A : Type} (l : list A) :
  (List.length l =? 0)%nat = true -> l = [].
Proof. destruct l; [reflexivity | discriminate]. Qed.

(** X10: after [validate_survey] the flag is set exactly when it was set
    before and every drillhole of the survey table has at least two survey
    rows. *)
Theorem validate_survey_flag (self : DrillData) :
  validated (validate_survey self) = true
  <-> validated self = true
      /\ forall dh, In dh (map sID (survey self)) ->
                    (2 <= survey_count self dh)%nat.
Proof.
  unfold validate_survey.
  destruct (validated self) eqn:Hv; cbn [negb].
  - destruct (List.length (one_row_dh self) =? 0)%nat eqn:E.
    + cbn. split; [ | reflexivity]. intros _. split; [reflexivity | ].
      intros dh Hdh. apply length_eqb_zero in E.
      destruct (survey_count self dh <=? 1)%nat eqn:Ec;
        [ | apply Nat.leb_gt in Ec; lia].
      assert (Hin : In dh (one_row_dh self)).
      { unfold one_row_dh. apply filter_In. split; [ | exact Ec].
        now apply In_unique. }
      rewrite E in Hin. destruct Hin.
    + cbn. split; [discriminate | ]. intros [_ H]. exfalso.
      destruct (one_row_dh self) as [| dh t] eqn:El; [discriminate | ].
      assert (Hin : In dh (one_row_dh self)) by (rewrite El; now left).
      unfold one_row_dh in Hin. apply filter_In in Hin.
      destruct Hin as [Hin Hc]. apply (proj1 (In_unique _ _)) in Hin.
      apply Nat.leb_le in Hc. specialize (H dh Hin). lia.
  - rewrite Hv. split; [discriminate | intros [H _]; discriminate].
Qed.

Lemma In_extra_dh (self : DrillData) (x : string) :
  In x (extra_dh self)
  <-> let c := map cID (collar self) in
      let s := map sID (survey self) in
      let t := map tID (table_rows (table self)) in
      (In x c /\ ~ In x s) \/ (In x s /\ ~ In x c)
      \/ (In x t /\ ~ In x s) \/ (In x s /\ ~ In x t)
      \/ (In x c /\ ~ In x t) \/ (In x t /\ ~ In x c).
Proof.
  unfold extra_dh. cbv zeta.
  rewrite !In_set_union, !In_set_xor, !In_unique. tauto.
Qed.

(** X11: after [validate_ID] the flag is set exactly when it was set
    before and the collar, survey and feature tables name the same
    drillholes. *)
Theorem validate_ID_flag (self : DrillData) :
  validated (validate_ID self) = true
  <-> validated self = true
      /\ (forall dh, In dh (map cID (collar self))
                     <-> In dh (map sID (survey self)))
      /\ (forall dh, In dh (map sID (survey self))
                     <-> In dh (map tID (table_rows (table self)))).
Proof.
  unfold validate_ID.
  destruct (validated self) eqn:Hv; cbn [negb].
  - destruct (List.length (extra_dh self) =? 0)%nat eqn:E.
    + cbn. split; [ | reflexivity]. intros _. split; [reflexivity | ].
      apply length_eqb_zero in E.
      assert (Hno : forall x, ~ In x (extra_dh self))
        by (intros x; rewrite E; intros []).
      split; intros dh; specialize (Hno dh); rewrite In_extra_dh in Hno;
        cbv zeta in Hno;
        destruct (in_dec string_dec dh (map cID (collar self)));
        destruct (in_dec string_dec dh (map sID (survey self)));
        destruct (in_dec string_dec dh (map tID (table_rows (table self))));
        tauto.
    + cbn. split; [discriminate | ]. intros (_ & Hcs & Hst). exfalso.
      destruct (extra_dh self) as [| x t] eqn:El; [discriminate | ].
      assert (Hin : In x (extra_dh self)) by (rewrite El; now left).
      apply In_extra_dh in Hin. cbv zeta in Hin.
      pose proof (Hcs x). pose proof (Hst x). tauto.
  - rewrite Hv. split; [discriminate | intros [H _]; discriminate].
Qed.

Lemma set_validated_as_is (self : DrillData) :
  set_validated self (validated self) = self.
Proof. destruct self. reflexivity. Qed.

Lemma validate_survey_as_flag (self : DrillData) :
  validate_survey self = set_validated self (validated (validate_survey self)).
Proof.
  unfold validate_survey. destruct (validated self) eqn:Hv; cbn [negb].
  - destruct (List.length (one_row_dh self) =? 0)%nat; reflexivity.
  - now rewrite Hv, <- Hv, set_validated_as_is.
Qed.

Lemma validate_ID_as_flag (self : DrillData) :
  validate_ID self = set_validated self (validated (validate_ID self)).
Proof.
  unfold validate_ID. destruct (validated self) eqn:Hv; cbn [negb].
  - destruct (List.length (extra_dh self) =? 0)%nat; reflexivity.
  - now rewrite Hv, <- Hv, set_validated_as_is.
Qed.

Lemma validate_content_flag (self : DrillData) :
  validated (validate_content self) = true
  <-> validated self = true
      /\ (forall dh, In dh (map sID (survey self)) ->
                     (2 <= survey_count self dh)%nat)
      /\ (forall dh, In dh (map cID (collar self))
                     <-> In dh (map sID (survey self)))
      /\ (forall dh, In dh (map sID (survey self))
                     <-> In dh (map tID (table_rows (table self)))).
Proof.
  unfold validate_content. rewrite validate_ID_flag, validate_survey_flag.
  destruct (validate_survey_tables self) as (Hc & Hs & Ht & _).
  rewrite Hc, Hs, Ht. tauto.
Qed.

Lemma validate_content_as_flag (self : DrillData) :
  validate_content self
  = set_validated self (validated (validate_content self)).
Proof.
  unfold validate_content.
  rewrite validate_ID_as_flag at 1.
  rewrite validate_survey_as_flag at 1. reflexivity.
Qed.

(** ** The sequence of checks in [validate] *)








Lemma and_then_raised (self : DrillData) (e : exn)
  (k : DrillData -> DrillData * outcome) :
  and_then (self, Raised e) k = (self, Raised e).
Proof. reflexivity. Qed.






(** ** [get_points] on validated data *)

Lemma count_of_name (x : string) (l : list string) :
  NoDup l ->
  list_sum (map (fun y => if String.eqb x y then 1%nat else 0%nat) l)
  = if mem x l then 1%nat else 0%nat.
Proof.
  induction 1 as [| y t Hy Hnd IH]; [reflexivity | ].
  unfold list_sum in *. cbn [map fold_right mem existsb].
  fold (mem x t). rewrite IH.
  destruct (String.eqb x y) eqn:E; [ | reflexivity].
  apply String.eqb_eq in E. subst y.
  destruct (mem x t) eqn:Em; [ | reflexivity].
  apply mem_In in Em. contradiction.
Qed.

Lemma list_sum_map_add {A : Type} (f g : A -> nat) (l : list A) :
  list_sum (map (fun x => (f x + g x)%nat) l)
  = (list_sum (map f l) + list_sum (map g l))%nat.
Proof. unfold list_sum. induction l as [| a t IH]; simpl; lia. Qed.

(** The rows of the drillholes add up to the rows of the table when every
    row belongs to one of the drillholes. *)
Lemma rows_per_hole_sum (rows : list feature_row) (holes : list string) :
  NoDup holes ->
  (forall r, In r rows -> In (fID r) holes) ->
  list_sum (map (fun dh => List.length (hole_feature rows dh)) holes)
  = List.length rows.
Proof.
  intros Hnd. induction rows as [| r t IH]; intros Hall.
  - unfold hole_feature, list_sum. simpl. clear Hnd Hall.
    induction holes; simpl; [reflexivity | assumption].
  - rewrite (map_ext _
      (fun dh => ((if String.eqb (fID r) dh then 1 else 0)
                  + List.length (hole_feature t dh))%nat)).
    + rewrite list_sum_map_add, count_of_name by assumption.
      rewrite IH by (intros r' H'; apply Hall; now right).
      assert (Hm : mem (fID r) holes = true)
        by (apply mem_In, Hall; now left).
      rewrite Hm. reflexivity.
    + intros dh. unfold hole_feature. cbn [filter].
      destruct (String.eqb (fID r) dh); reflexivity.
Qed.

Lemma hole_collar_present (collar : list collar_row) (dh : string) :
  In dh (map cID collar) -> exists c, hole_collar collar dh = Ok c.
Proof.
  unfold hole_collar. induction collar as [| c t IH]; [intros [] | ].
  cbn [map In filter]. intros H.
  destruct (String.eqb (cID c) dh) eqn:E.
  - now exists (cX c, cY c, cZ c).
  - apply String.eqb_neq in E. destruct H as [H | H]; [contradiction | ].
    now apply IH.
Qed.

Lemma hole_feature_present (rows : list feature_row) (dh : string) :
  In dh (map fID rows) -> hole_feature rows dh <> [].
Proof.
  unfold hole_feature. intros H. apply in_map_iff in H.
  destruct H as (r & Hr & Hin).
  assert (Hf : In r (filter (fun r => String.eqb (fID r) dh) rows)).
  { apply filter_In. split; [exact Hin | ]. rewrite Hr. apply String.eqb_refl. }
  intros E. rewrite E in Hf. destruct Hf.
Qed.

Lemma length_hole_survey (self : DrillData) (dh : string) :
  List.length (hole_survey (survey self) dh) = survey_count self dh.
Proof. unfold hole_survey, survey_count. now rewrite length_map. Qed.

Section Validated.

Variable lib : SplineLib.

Lemma hole_setup_ok (self : DrillData) (rows : list feature_row)
  (dh : string) :
  In dh (map cID (collar self)) ->
  (forall c, hole_collar (collar self) dh = Ok c ->
             exists t, Trajectory.fit lib c (hole_survey (survey self) dh)
                       = Ok t) ->
  In dh (map fID rows) ->
  (forall r, In r rows -> 0 < fTO r) ->
  exists t len,
    hole_setup lib (collar self) (survey self) rows dh
    = Ok (t, Drape.quotients len (hole_feature rows dh)).
Proof.
  intros Hc Hfit Hf Hpos.
  destruct (hole_collar_present _ _ Hc) as (c & Hcol).
  destruct (Hfit c Hcol) as (t & Ht).
  destruct (array_max_spec (map fTO (hole_feature rows dh)))
    as (m & Hm & Hin & _).
  { pose proof (hole_feature_present rows dh Hf) as Hne.
    destruct (hole_feature rows dh); [contradiction | discriminate]. }
  exists t, m. apply (hole_setup_run lib _ _ _ _ c); try assumption.
  apply in_map_iff in Hin. destruct Hin as (r & <- & Hr).
  unfold hole_feature in Hr. apply filter_In in Hr.
  specialize (Hpos r (proj1 Hr)). lra.
Qed.

Lemma loop_categorical_length (collar : list collar_row)
  (survey : list survey_row) (rows : list feature_row)
  (holes : list string) :
  (forall dh, In dh holes ->
     exists t len, hole_setup lib collar survey rows dh
                   = Ok (t, Drape.quotients len (hole_feature rows dh))) ->
  forall points, exists pts,
    loop_categorical lib collar survey rows holes points = Ok pts
    /\ List.length pts
       = (List.length points
          + 3 * list_sum (map (fun dh => List.length (hole_feature rows dh))
                              holes))%nat.
Proof.
  induction holes as [| dh rest IH]; intros Hs points.
  - exists points. split; [reflexivity | simpl; lia].
  - destruct (Hs dh (or_introl eq_refl)) as (t & len & Hdh).
    cbn [loop_categorical]. rewrite Hdh. cbn [bind fst snd].
    destruct (IH (fun dh' H' => Hs dh' (or_intror H'))
                 (Drape.categorical lib t
                    (Drape.quotients len (hole_feature rows dh)) points))
      as (pts & Hpts & Hlen).
    exists pts. split; [exact Hpts | ].
    rewrite Hlen, categorical_emitted, length_app, length_categorical.
    unfold list_sum. cbn [map fold_right]. lia.
Qed.

Lemma loop_numeric_length (collar : list collar_row)
  (survey : list survey_row) (rows : list feature_row)
  (holes : list string) :
  (forall dh, In dh holes ->
     exists t len, hole_setup lib collar survey rows dh
                   = Ok (t, Drape.quotients len (hole_feature rows dh))) ->
  forall points, exists pts,
    loop_numeric lib collar survey rows holes points = Ok pts
    /\ List.length pts
       = (List.length points
          + 2 * list_sum (map (fun dh => List.length (hole_feature rows dh))
                              holes)
          + List.length holes)%nat.
Proof.
  induction holes as [| dh rest IH]; intros Hs points.
  - exists points. split; [reflexivity | simpl; lia].
  - destruct (Hs dh (or_introl eq_refl)) as (t & len & Hdh).
    cbn [loop_numeric]. rewrite Hdh. cbn [bind fst snd].
    destruct (IH (fun dh' H' => Hs dh' (or_intror H'))
                 (Drape.numeric lib t
                    (Drape.quotients len (hole_feature rows dh)) points))
      as (pts & Hpts & Hlen).
    exists pts. split; [exact Hpts | ].
    rewrite Hlen, numeric_emitted, length_app, length_numeric.
    unfold list_sum. cbn [map fold_right List.length]. lia.
Qed.

End Validated.

Lemma select_feature_present (t : Table) (feature : string) :
  In feature (feature_cols t) ->
  exists rows,
    select_feature t feature = Ok rows
    /\ map fID rows = map tID (table_rows t)
    /\ List.length rows = List.length (table_rows t)
    /\ map fTO rows = map tTO (table_rows t).
Proof.
  intros Hf. unfold select_feature.
  destruct (index_of_In feature _ Hf) as [i Hi]. rewrite Hi.
  eexists. split; [reflexivity | ].
  split; [now rewrite map_map | ].
  split; [now rewrite length_map | now rewrite map_map].
Qed.

(** X14: on data that has passed the content checks, with the frames in
    the column layout of the model, for a feature that is a column of the
    table, when [splprep] fits the knots of every drillhole and every [TO]
    is positive, [get_points] returns normally; the categorical branch
    produces three points for every row of the feature table, the numeric
    branch two points for every row and one more for every drillhole. *)
Theorem get_points_after_validation (lib : SplineLib) (self : DrillData)
  (feature : string) :
  validated (validate_content self) = true ->
  In feature (feature_cols (table self)) ->
  (forall dh c, In dh (map sID (survey self)) ->
                hole_collar (collar self) dh = Ok c ->
                exists t, Trajectory.fit lib c
                            (hole_survey (survey self) dh) = Ok t) ->
  (forall r, In r (table_rows (table self)) -> 0 < tTO r) ->
  (exists pts,
      get_points lib (validate_content self) feature "categorical"
      = (set_points
           (set_feature (validate_content self) feature "categorical") pts,
         Returned)
      /\ List.length pts = (3 * List.length (table_rows (table self)))%nat)
  /\ (exists pts,
         get_points lib (validate_content self) feature "numeric"
         = (set_points
              (set_feature (validate_content self) feature "numeric") pts,
            Returned)
         /\ List.length pts
            = (2 * List.length (table_rows (table self))
               + List.length (unique (map sID (survey self))))%nat).
Proof.
  intros Hv Hf Hlib Hto.
  pose proof (proj1 (validate_content_flag self) Hv)
    as (_ & Hcount & Hcs & Hst).
  rewrite validate_content_as_flag, Hv.
  destruct (select_feature_present (table self) feature Hf)
    as (rows & Hsel & Hids & Hlen & Htos).
  assert (Hpos : forall r, In r rows -> 0 < fTO r).
  { intros r Hr. apply (in_map fTO) in Hr. rewrite Htos in Hr.
    apply in_map_iff in Hr. destruct Hr as (tr & <- & Htr).
    now apply Hto. }
  assert (Hsetup : forall dh, In dh (unique (map sID (survey self))) ->
    exists t len,
      hole_setup lib (collar self) (survey self) rows dh
      = Ok (t, Drape.quotients len (hole_feature rows dh))).
  { intros dh Hdh. apply (proj1 (In_unique _ _)) in Hdh.
    apply hole_setup_ok.
    - now apply Hcs.
    - intros c Hc. now apply (Hlib dh c).
    - rewrite Hids. now apply Hst.
    - exact Hpos. }
  assert (Hsum : list_sum (map (fun dh => List.length (hole_feature rows dh))
                               (unique (map sID (survey self))))
                 = List.length (table_rows (table self))).
  { rewrite <- Hlen. apply rows_per_hole_sum.
    - apply NoDup_unique_from.
    - intros r Hr. apply In_unique. apply Hst. rewrite <- Hids.
      now apply in_map. }
  unfold get_points. cbn [set_validated validated negb].
  cbn [set_feature set_validated table survey collar]. rewrite Hsel.
  cbn [String.eqb Ascii.eqb Bool.eqb].
  split.
  - destruct (loop_categorical_length lib (collar self) (survey self) rows
                _ Hsetup []) as (pts & -> & Hpts).
    exists pts. split; [reflexivity | ].
    rewrite Hpts, Hsum. simpl. lia.
  - destruct (loop_numeric_length lib (collar self) (survey self) rows
                _ Hsetup []) as (pts & -> & Hpts).
    exists pts. split; [reflexivity | ].
    rewrite Hpts, Hsum. simpl. lia.
Qed.

Lemma get_points_after_validation_witness :
  validated (validate_content Examples.dh1) = true
  /\ In "LITH"%string (feature_cols (table Examples.dh1))
  /\ exists pts,
      get_points Examples.chord_lib (validate_content Examples.dh1)
                 "LITH" "numeric"
      = (set_points
           (set_feature (validate_content Examples.dh1) "LITH" "numeric") pts,
         Returned)
      /\ List.length pts = 5%nat.
Proof.
  assert (Hv : validated (validate_content Examples.dh1) = true)
    by reflexivity.
  assert (Hf : In "LITH"%string (feature_cols (table Examples.dh1)))
    by (simpl; tauto).
  assert (Hlib : forall dh c,
            In dh (map sID (survey Examples.dh1)) ->
            hole_collar (collar Examples.dh1) dh = Ok c ->
            exists t, Trajectory.fit Examples.chord_lib c
                        (hole_survey (survey Examples.dh1) dh) = Ok t).
  { intros dh c [<- | [<- | [<- | []]]] Hc; eexists; reflexivity. }
  assert (Hto : forall r, In r (table_rows (table Examples.dh1)) ->
                          0 < tTO r).
  { intros r [<- | [<- | []]]; simpl; lra. }
  split; [exact Hv | ]. split; [exact Hf | ].
  exact (proj2 (get_points_after_validation Examples.chord_lib Examples.dh1
                  "LITH" Hv Hf Hlib Hto)).
Defined.

(** ** What [get_points] changes *)

Lemma get_points_cases (lib : SplineLib) (self : DrillData)
  (feature dtype : string) :
  (validated self = false
   /\ get_points lib self feature dtype = (self, Returned))
  \/ (validated self = true
      /\ exists e, get_points lib self feature dtype
                   = (set_feature self feature dtype, Raised e))
  \/ (validated self = true
      /\ exists pts, get_points lib self feature dtype
                     = (set_points (set_feature self feature dtype) pts,
                        Returned)
                     /\ (dtype <> "categorical"%string ->
                         dtype <> "numeric"%string -> pts = [])).
Proof.
  unfold get_points. destruct (validated self) eqn:Hv; cbn [negb].
  - right. cbn [set_feature table survey collar].
    destruct (select_feature (table self) feature) as [rows | e];
      [ | left; split; [reflexivity | now exists e]].
    destruct (String.eqb dtype "categorical") eqn:Ec.
    + destruct (loop_categorical lib (collar self) (survey self) rows
                  (unique (map sID (survey self))) []) as [pts | e].
      * right. split; [reflexivity | ]. exists pts.
        split; [reflexivity | ].
        apply String.eqb_eq in Ec. intros H. contradiction.
      * left. split; [reflexivity | now exists e].
    + destruct (String.eqb dtype "numeric") eqn:En.
      * destruct (loop_numeric lib (collar self) (survey self) rows
                    (unique (map sID (survey self))) []) as [pts | e].
        -- right. split; [reflexivity | ]. exists pts.
           split; [reflexivity | ].
           apply String.eqb_eq in En. intros _ H. contradiction.
        -- left. split; [reflexivity | now exists e].
      * right. split; [reflexivity | ]. exists [].
        split; reflexivity.
  - left. split; reflexivity.
Qed.

(** X15: [get_points] never changes the three frames nor the [validated]
    flag, and when an exception leaves it, [points] and [has_points] are
    as they were before the call. *)
Theorem get_points_keeps_data (lib : SplineLib) (self : DrillData)
  (feature dtype : string) :
  collar (fst (get_points lib self feature dtype)) = collar self
  /\ survey (fst (get_points lib self feature dtype)) = survey self
  /\ table (fst (get_points lib self feature dtype)) = table self
  /\ validated (fst (get_points lib self feature dtype)) = validated self
  /\ (forall e,
        snd (get_points lib self feature dtype) = Raised e ->
        points (fst (get_points lib self feature dtype)) = points self
        /\ has_points (fst (get_points lib self feature dtype))
           = has_points self).
Proof.
  destruct (get_points_cases lib self feature dtype)
    as [(_ & ->) | [(_ & e & ->) | (_ & pts & -> & _)]];
    cbn [fst snd]; repeat split; discriminate.
Qed.

(** X16: a second call with the same arguments gives the same object and
    the same outcome as the first; the points of the first call are
    replaced, not extended. *)
Theorem get_points_twice (lib : SplineLib) (self : DrillData)
  (feature dtype : string) :
  get_points lib (fst (get_points lib self feature dtype)) feature dtype
  = get_points lib self feature dtype.
Proof.
  unfold get_points at 2 3.
  destruct (validated self) eqn:Hv; cbn [negb];
    [ | cbn [fst]; now apply get_points_gate].
  cbn [set_feature table survey collar].
  destruct (select_feature (table self) feature) as [rows | e] eqn:Hsel.
  - set (r := if String.eqb dtype "categorical"
              then loop_categorical lib (collar self) (survey self) rows
                     (unique (map sID (survey self))) []
              else if String.eqb dtype "numeric"
              then loop_numeric lib (collar self) (survey self) rows
                     (unique (map sID (survey self))) []
              else Ok []).
    destruct r as [pts | e] eqn:Hr; cbn [fst]; unfold get_points;
      cbn [set_points set_feature validated table survey collar];
      rewrite Hv; cbn [negb]; rewrite Hsel; fold r; rewrite Hr; reflexivity.
  - cbn [fst]. unfold get_points.
    cbn [set_feature validated table survey collar].
    rewrite Hv. cbn [negb]. rewrite Hsel. reflexivity.
Qed.

Lemma index_of_absent (x : string) (l : list string) :
  ~ In x l -> index_of x l = None.
Proof.
  induction l as [| y t IH]; [reflexivity | ].
  cbn [index_of In]. intros H.
  destruct (String.eqb y x) eqn:E.
  - apply String.eqb_eq in E. tauto.
  - rewrite IH by tauto. reflexivity.
Qed.

(** X17: on validated data, asking for a feature that is not a column of
    the feature table makes the column selection raise [KeyError], for any
    dtype; the requested feature and dtype are recorded and no points are
    assigned. *)
Theorem get_points_unknown_feature (lib : SplineLib) (self : DrillData)
  (feature dtype : string) :
  validated self = true ->
  ~ In feature (table_columns ++ feature_cols (table self)) ->
  get_points lib self feature dtype
  = (set_feature self feature dtype, Raised KeyError)
  /\ points (fst (get_points lib self feature dtype)) = points self
  /\ has_points (fst (get_points lib self feature dtype)) = has_points self.
Proof.
  intros Hv Hf.
  assert (H : get_points lib self feature dtype
              = (set_feature self feature dtype, Raised KeyError)).
  { unfold get_points. rewrite Hv. cbn [negb].
    cbn [set_feature table]. unfold select_feature.
    rewrite index_of_absent
      by (intros Hin; apply Hf; apply in_or_app; now right).
    assert (Hfrom : String.eqb feature "FROM" = false).
    { apply String.eqb_neq. intros ->. apply Hf. simpl. tauto. }
    assert (Hto : String.eqb feature "TO" = false).
    { apply String.eqb_neq. intros ->. apply Hf. simpl. tauto. }
    rewrite Hfrom, Hto. reflexivity. }
  rewrite H. repeat split.
Qed.

Lemma get_points_unknown_feature_witness :
  validated Examples.dh1 = true
  /\ get_points Examples.chord_lib Examples.dh1 "GRADE" "numeric"
     = (set_feature Examples.dh1 "GRADE" "numeric", Raised KeyError).
Proof.
  assert (Hv : validated Examples.dh1 = true) by reflexivity.
  split; [exact Hv | ].
  apply (get_points_unknown_feature Examples.chord_lib Examples.dh1
           "GRADE" "numeric" Hv).
  simpl. intuition discriminate.
Defined.

(** ** Plotting *)

(** X18: after a call of [get_points] that returned normally on validated
    data, [plot_3d] shows for the dtype ["categorical"], as for every dtype
    other than ["numeric"], the collar trace and the path trace only: it
    draws the categories for the dtype ["categoric"], for which
    [get_points] computes no points.  For ["numeric"] it adds one trace
    named after the feature and coloured by its values when each value is
    a number or a text that plotly takes for a colour, and is left by the
    [ValueError] of [go.Scatter3d] otherwise. *)
Theorem plot_3d_feature_traces (lib : SplineLib) (is_color : string -> bool)
  (self : DrillData) (feature dtype : string) :
  validated self = true ->
  snd (get_points lib self feature dtype) = Returned ->
  (dtype <> "numeric"%string ->
   exists collar_trace path_trace,
     plot_3d is_color (fst (get_points lib self feature dtype))
     = Ok (Some [collar_trace; path_trace])
     /\ tr_name collar_trace = Named "Collar"
     /\ tr_name path_trace = Named "Path")
  /\ (dtype = "numeric"%string ->
      exists pts,
        points (fst (get_points lib self feature dtype)) = Some pts
        /\ ((forall p, In p pts -> color_accepted is_color (pval p) = true) ->
            exists collar_trace path_trace tr,
              plot_3d is_color (fst (get_points lib self feature dtype))
              = Ok (Some [collar_trace; path_trace; tr])
              /\ tr_name tr = Named feature
              /\ tr_color tr = Some (map pval pts))
        /\ ((exists p, In p pts /\ color_accepted is_color (pval p) = false) ->
            plot_3d is_color (fst (get_points lib self feature dtype))
            = Raise ValueError)).
Proof.
  intros Hv Hret.
  destruct (get_points_cases lib self feature dtype)
    as [(Hf & _) | [(_ & e & He) | (_ & pts & Hpts & Hempty)]].
  - congruence.
  - rewrite He in Hret. discriminate.
  - rewrite Hpts. cbn [fst]. unfold plot_3d.
    cbn -[feature_traces]. unfold feature_traces. split.
    + intros Hn. apply String.eqb_neq in Hn. rewrite Hn.
      destruct (String.eqb dtype "categoric") eqn:Ec.
      * apply String.eqb_eq in Ec. subst dtype.
        rewrite Hempty by discriminate. cbn.
        do 2 eexists. split; [reflexivity | split; reflexivity].
      * cbn. do 2 eexists. split; [reflexivity | split; reflexivity].
    + intros ->. cbn [String.eqb Ascii.eqb Bool.eqb].
      exists pts. split; [reflexivity | ]. split.
      * intros Hall.
        assert (E : forallb (color_accepted is_color) (map pval pts) = true).
        { apply forallb_forall. intros c Hc. apply in_map_iff in Hc.
          destruct Hc as (p & <- & Hp). now apply Hall. }
        rewrite E. cbn. do 3 eexists.
        split; [reflexivity | split; reflexivity].
      * intros (p & Hp & Hbad).
        assert (E : forallb (color_accepted is_color) (map pval pts) = false).
        { apply not_true_iff_false. intros E.
          rewrite forallb_forall in E.
          specialize (E (pval p) (in_map pval _ _ Hp)). congruence. }
        rewrite E. reflexivity.
Qed.

Lemma plot_3d_feature_traces_witness :
  validated Examples.dh1 = true
  /\ snd (get_points Examples.chord_lib Examples.dh1 "LITH" "categorical")
     = Returned
  /\ exists collar_trace path_trace,
      plot_3d (fun _ => false)
              (fst (get_points Examples.chord_lib Examples.dh1
                               "LITH" "categorical"))
      = Ok (Some [collar_trace; path_trace]).
Proof.
  assert (Hv : validated Examples.dh1 = true) by reflexivity.
  assert (Hr : snd (get_points Examples.chord_lib Examples.dh1
                               "LITH" "categorical") = Returned)
    by (rewrite dh1_categorical; reflexivity).
  split; [exact Hv | ]. split; [exact Hr | ].
  destruct (proj1 (plot_3d_feature_traces Examples.chord_lib (fun _ => false)
                     Examples.dh1 "LITH" "categorical" Hv Hr)
                  ltac:(discriminate))
    as (c & p & Hplot & _).
  exists c, p. exact Hplot.
Defined.

(** X19: on an object without points, a call of [get_points] that is
    refused at the gate or left by an exception leaves [plot_3d] with
    nothing to show: it returns at its own gate. *)
Theorem plot_3d_after_failed_get_points (lib : SplineLib)
  (is_color : string -> bool) (self : DrillData) (feature dtype : string) :
  has_points self = false ->
  validated self = false
  \/ (exists e, snd (get_points lib self feature dtype) = Raised e) ->
  plot_3d is_color (fst (get_points lib self feature dtype)) = Ok None.
Proof.
  intros Hp Hfail.
  destruct (get_points_cases lib self feature dtype)
    as [(_ & H) | [(_ & e & H) | (Hv & pts & H & _)]]; rewrite H in *;
    cbn [fst snd] in *.
  - unfold plot_3d. now rewrite Hp.
  - unfold plot_3d. cbn [set_feature has_points]. now rewrite Hp.
  - destruct Hfail as [Hf | (e & He)]; [congruence | discriminate].
Qed.

Lemma plot_3d_after_failed_get_points_witness :
  has_points Examples.no_feature_batch = false
  /\ plot_3d (fun _ => false)
             (fst (get_points Examples.chord_lib Examples.no_feature_batch
                              "LITH" "categorical"))
     = Ok None.
Proof.
  assert (Hp : has_points Examples.no_feature_batch = false) by reflexivity.
  split; [exact Hp | ].
  apply (plot_3d_after_failed_get_points Examples.chord_lib (fun _ => false)
           Examples.no_feature_batch "LITH" "categorical" Hp).
  right. exists ValueError. now rewrite no_feature_batch_categorical.
Defined.
